(** * analyzer.py: transcript loader, summarizer and command line

    A shallow embedding of [python/analyzer.py] and the properties of its
    read -> filter -> count -> format -> write pipeline.

    Layout
    - Part 1: the Python values the program touches (text, JSON values,
      exceptions) and the library calls it makes ([str.strip], [dict.get],
      [json.loads], [pathlib], text files).
    - Part 2: the three functions of the source, [load_messages],
      [summarize] and [main].
    - Part 3: a reference instance of the library interfaces (a JSON
      decoder after CPython's [json] scanner, a POSIX path model).
    - Part 4: the vocabulary of the specification and the inputs of the
      concrete runs.
    - Part 5: the properties. *)

From Stdlib Require Import List String Ascii NArith ZArith Bool Arith Lia.
From Stdlib Require Import DecimalString Permutation.
Import ListNotations.

Set Warnings "-register-all".

(* ===================================================================== *)
(** * Part 1. Python values *)
(* ===================================================================== *)

(** ** Text

    A Python [str] is a sequence of Unicode code points.  Literals of the
    source are ASCII, so they are written as Rocq strings and injected
    with [lit]. *)

Definition codepoint := N.
Definition str := list codepoint.

Definition lit (s : string) : str := map N_of_ascii (list_ascii_of_string s).

(** The line feed of the source's ["\n"]. *)
Definition nl : str := [10%N].

Definition str_eqb (a b : str) : bool :=
  if list_eq_dec N.eq_dec a b then true else false.

(** [str(n)] for a non-negative [int]. *)
Definition str_of_nat (n : nat) : str :=
  lit (NilZero.string_of_uint (Nat.to_uint n)).

(** [str(z)] for an [int]. *)
Definition str_of_Z (z : Z) : str :=
  lit (NilZero.string_of_int (Z.to_int z)).

(** [sep.join(parts)]. *)
Fixpoint join (sep : str) (parts : list str) : str :=
  match parts with
  | [] => []
  | [p] => p
  | p :: ps => p ++ sep ++ join sep ps
  end.

(** [s.split(sep)] for a separator of one character; [cur] is the piece
    being read. *)
Fixpoint split_on (sep : codepoint) (s cur : str) : list str :=
  match s with
  | [] => [cur]
  | c :: s' =>
      if (c =? sep)%N then cur :: split_on sep s' []
      else split_on sep s' (cur ++ [c])
  end.

(** The lines of a text: its pieces between line feeds. *)
Definition has_line (text line : str) : Prop :=
  In line (split_on 10%N text []).

(** *** Whitespace and [str.strip]

    [str.strip()] without argument removes the characters for which
    [str.isspace] holds: the Unicode white space of CPython's
    [_PyUnicode_IsWhitespace]. *)

Definition isspace (c : codepoint) : bool :=
  ((9 <=? c) && (c <=? 13)            (* \t \n \v \f \r *)
   || (28 <=? c) && (c <=? 32)        (* FS GS RS US and the space *)
   || (c =? 133) || (c =? 160)        (* NEL, no-break space *)
   || (c =? 5760)                     (* U+1680 *)
   || (8192 <=? c) && (c <=? 8202)    (* U+2000 .. U+200A *)
   || (c =? 8232) || (c =? 8233)      (* U+2028, U+2029 *)
   || (c =? 8239) || (c =? 8287)      (* U+202F, U+205F *)
   || (c =? 12288))%N.                (* U+3000 *)

Fixpoint lstrip (s : str) : str :=
  match s with
  | c :: s' => if isspace c then lstrip s' else s
  | [] => []
  end.

Definition rstrip (s : str) : str := rev (lstrip (rev s)).

Definition strip (s : str) : str := rstrip (lstrip s).

(** Truth value of a [str]: empty is false. *)
Definition truthy (s : str) : bool :=
  match s with [] => false | _ :: _ => true end.

(** ** Exceptions

    The exceptions that can leave the functions of the source;
    [SystemExit] is what [sys.exit] raises; [ValueError] and
    [RecursionError] are what [json.loads] raises on an integer literal
    longer than the interpreter converts and on nesting deeper than its
    stack.  [json.JSONDecodeError] is not among them: [load_messages]
    handles it where it is raised, and it appears below as a result of
    [json_loads]. *)

Inductive exn : Type :=
| AttributeError (type_name attr : str)
| FileNotFoundError
| IsADirectoryError
| UnicodeDecodeError
| UnicodeEncodeError
| ValueError
| RecursionError
| SystemExit (code : Z).

Definition result (A : Type) : Type := exn + A.
Definition Ok {A} (a : A) : result A := inr a.
Definition Raise {A} (e : exn) : result A := inl e.

Definition rbind {A B} (m : result A) (k : A -> result B) : result B :=
  match m with
  | inl e => inl e
  | inr a => k a
  end.

Declare Scope py_scope.
Delimit Scope py_scope with py.
Notation "x <- m ;; k" := (rbind m (fun x => k))
  (at level 61, m at next level, right associativity) : py_scope.

(** ** JSON values

    What [json.loads] returns: [None], [bool], [int], [float], [str],
    [list] and [dict].  Floating point is not modelled: a [float] is a
    value of a type the runtime provides together with its [repr].  A
    [dict] is kept as its items in insertion order. *)

Class PyFloat : Type := {
  pyfloat : Type;
  float_repr : pyfloat -> str
}.

Section Json.
Context {PF : PyFloat}.

Inductive json : Type :=
| JNone
| JBool (b : bool)
| JInt (z : Z)
| JFloat (f : pyfloat)
| JStr (s : str)
| JList (items : list json)
| JDict (items : list (str * json)).

(** [type(j).__name__], as it appears in an [AttributeError]. *)
Definition type_name (j : json) : str :=
  match j with
  | JNone => lit "NoneType"
  | JBool _ => lit "bool"
  | JInt _ => lit "int"
  | JFloat _ => lit "float"
  | JStr _ => lit "str"
  | JList _ => lit "list"
  | JDict _ => lit "dict"
  end.

Definition is_dict (j : json) : bool :=
  match j with JDict _ => true | _ => false end.

(** Lookup in the items of a [dict]. *)
Fixpoint lookup (key : str) (items : list (str * json)) : option json :=
  match items with
  | [] => None
  | (k, v) :: rest => if str_eqb k key then Some v else lookup key rest
  end.

(** [m.get(key, default)]: defined on a [dict] only; every other JSON
    value has no attribute [get]. *)
Definition py_get (m : json) (key : str) (default : json) : result json :=
  match m with
  | JDict items =>
      Ok (match lookup key items with Some v => v | None => default end)
  | _ => Raise (AttributeError (type_name m) (lit "get"))
  end.

(** [v == s] for a string literal [s]: only an equal [str] compares
    equal. *)
Definition eq_str (v : json) (s : str) : bool :=
  match v with
  | JStr t => str_eqb t s
  | _ => false
  end.

End Json.

Arguments json : clear implicits.
Arguments json {PF}.

(** The library calls whose behaviour depends on tables or algorithms
    outside this program: [json.loads] and [repr] of a [str].
    [json.loads] returns a value, raises [json.JSONDecodeError] on text
    that is not JSON, or raises another exception on JSON text that the
    interpreter cannot take: [ValueError] or [RecursionError]. *)

Inductive loads_error : Type :=
| TooManyDigits      (* ValueError     *)
| TooDeep.           (* RecursionError *)

Definition exn_of_loads_error (r : loads_error) : exn :=
  match r with
  | TooManyDigits => ValueError
  | TooDeep => RecursionError
  end.

Inductive loads_result {PF : PyFloat} : Type :=
| Loaded (j : json)
| JSONDecodeError
| Raised (r : loads_error).

Class PyJson (PF : PyFloat) : Type := {
  json_loads : str -> loads_result;
  str_repr : str -> str
}.

Section Format.
Context {PF : PyFloat} {PJ : PyJson PF}.

(** [repr(j)]. *)
Fixpoint py_repr (j : json) : str :=
  match j with
  | JNone => lit "None"
  | JBool true => lit "True"
  | JBool false => lit "False"
  | JInt z => str_of_Z z
  | JFloat f => float_repr f
  | JStr s => str_repr s
  | JList items =>
      lit "[" ++ join (lit ", ") (map py_repr items) ++ lit "]"
  | JDict items =>
      lit "{"
      ++ join (lit ", ")
           (map (fun kv => match kv with
                           | (k, v) => str_repr k ++ lit ": " ++ py_repr v
                           end) items)
      ++ lit "}"
  end.

(** What a replacement field [{v}] of an f-string inserts: [str(v)],
    which is the text itself for a [str] and [repr(v)] for the other
    JSON values. *)
Definition py_str (j : json) : str :=
  match j with
  | JStr s => s
  | _ => py_repr j
  end.

End Format.

(** ** Text files

    A file holds bytes.  Reading it as text with [encoding="utf-8"]
    decodes strictly; writing encodes, which fails on a surrogate code
    point. *)

Definition bytes := list Byte.byte.

Definition byte_of_N (n : N) : Byte.byte :=
  match Byte.of_N n with
  | Some b => b
  | None => Byte.x00
  end.

Definition utf8_encode_cp (c : codepoint) : option bytes :=
  (if c <? 128 then Some [byte_of_N c]
   else if c <? 2048 then
     Some [byte_of_N (192 + c / 64); byte_of_N (128 + c mod 64)]
   else if c <? 65536 then
     if (55296 <=? c) && (c <=? 57343) then None
     else Some [byte_of_N (224 + c / 4096);
                byte_of_N (128 + (c / 64) mod 64);
                byte_of_N (128 + c mod 64)]
   else if c <? 1114112 then
     Some [byte_of_N (240 + c / 262144);
           byte_of_N (128 + (c / 4096) mod 64);
           byte_of_N (128 + (c / 64) mod 64);
           byte_of_N (128 + c mod 64)]
   else None)%N.

Fixpoint utf8_encode (s : str) : option bytes :=
  match s with
  | [] => Some []
  | c :: s' =>
      match utf8_encode_cp c, utf8_encode s' with
      | Some b, Some bs => Some (b ++ bs)
      | _, _ => None
      end
  end.

Definition in_range (lo hi x : N) : bool := ((lo <=? x) && (x <=? hi))%N.

(** Strict UTF-8: shortest forms only, no surrogates, at most U+10FFFF. *)
Fixpoint utf8_decode_N (b : list N) : option str :=
  match b with
  | [] => Some []
  | b0 :: r0 =>
      if (b0 <? 128)%N then option_map (cons b0) (utf8_decode_N r0)
      else
        match r0 with
        | [] => None
        | b1 :: r1 =>
            if in_range 194 223 b0 then
              if in_range 128 191 b1
              then option_map (cons ((b0 - 192) * 64 + (b1 - 128))%N)
                              (utf8_decode_N r1)
              else None
            else
              match r1 with
              | [] => None
              | b2 :: r2 =>
                  if in_range 224 239 b0 then
                    if in_range (if (b0 =? 224)%N then 160 else 128)
                                (if (b0 =? 237)%N then 159 else 191) b1
                       && in_range 128 191 b2
                    then option_map
                           (cons ((b0 - 224) * 4096 + (b1 - 128) * 64
                                  + (b2 - 128))%N)
                           (utf8_decode_N r2)
                    else None
                  else
                    match r2 with
                    | [] => None
                    | b3 :: r3 =>
                        if in_range 240 244 b0
                           && in_range (if (b0 =? 240)%N then 144 else 128)
                                       (if (b0 =? 244)%N then 143 else 191) b1
                           && in_range 128 191 b2 && in_range 128 191 b3
                        then option_map
                               (cons ((b0 - 240) * 262144 + (b1 - 128) * 4096
                                      + (b2 - 128) * 64 + (b3 - 128))%N)
                               (utf8_decode_N r3)
                        else None
                    end
              end
        end
  end.

Definition utf8_decode (b : bytes) : option str :=
  utf8_decode_N (map Byte.to_N b).

(** Iterating over a file opened in text mode: universal newlines, so a
    line ends at ["\n"], ["\r\n"] or ["\r"], and the line handed to the
    loop ends with ["\n"] whichever it was.  [cur] is the line being
    read. *)
Fixpoint iter_lines (text cur : str) : list str :=
  match text with
  | [] => match cur with [] => [] | _ => [cur] end
  | c :: rest =>
      if (c =? 10)%N then (cur ++ nl) :: iter_lines rest []
      else if (c =? 13)%N then
        match rest with
        | c' :: rest' =>
            if (c' =? 10)%N then (cur ++ nl) :: iter_lines rest' []
            else (cur ++ nl) :: iter_lines rest []
        | [] => [cur ++ nl]
        end
      else iter_lines rest (cur ++ [c])
  end.

(** Writing in text mode replaces every ["\n"] by [os.linesep]. *)
Fixpoint translate_newlines (linesep s : str) : str :=
  match s with
  | [] => []
  | c :: s' =>
      if (c =? 10)%N then linesep ++ translate_newlines linesep s'
      else c :: translate_newlines linesep s'
  end.

(** ** The platform: [pathlib] and the file system

    [pathlib] is taken as an interface.  A file system maps a path to what
    is there: nothing, a directory or a regular file. *)

Class Platform : Type := {
  Path : Type;
  Path_eq_dec : forall p q : Path, {p = q} + {p <> q};
  mkPath : str -> Path;                 (* Path(s)       *)
  expanduser : Path -> Path;            (* p.expanduser() *)
  parent : Path -> Path;                (* p.parent      *)
  joinpath : Path -> str -> Path;       (* p / name      *)
  path_str : Path -> str;               (* str(p)        *)
  linesep : str                         (* os.linesep    *)
}.

Inductive node : Type :=
| File (data : bytes)
| Dir.

Section World.
Context {PL : Platform}.

Definition FS : Type := Path -> option node.

Definition fs_update (fs : FS) (p : Path) (n : node) : FS :=
  fun q => if Path_eq_dec p q then Some n else fs q.

(** The state a run of the script sees and changes. *)
Record World : Type := mkWorld {
  sys_argv : list str;
  fs : FS;
  stdout : list str      (* the lines printed so far *)
}.

(** Computations that change the world and may raise. *)
Definition M (A : Type) : Type := World -> World * result A.

Definition mret {A} (a : A) : M A := fun w => (w, Ok a).

Definition mbind {A B} (m : M A) (k : A -> M B) : M B :=
  fun w =>
    match m w with
    | (w', inl e) => (w', inl e)
    | (w', inr a) => k a w'
    end.

Definition lift {A} (r : result A) : M A := fun w => (w, r).

Definition print (s : str) : M unit :=
  fun w => (mkWorld (sys_argv w) (fs w) (stdout w ++ [s]), Ok tt).

Definition sys_exit (code : Z) : M unit :=
  fun w => (w, Raise (SystemExit code)).

Definition get_argv : M (list str) := fun w => (w, Ok (sys_argv w)).

(** [p.exists()]. *)
Definition path_exists (p : Path) : M bool :=
  fun w => (w, Ok (match fs w p with Some _ => true | None => false end)).

(** [p.open("r", encoding="utf-8")] followed by the iteration over the
    file: the lines the loop sees. *)
Definition open_lines (p : Path) : M (list str) :=
  fun w =>
    (w, match fs w p with
        | None => Raise FileNotFoundError
        | Some Dir => Raise IsADirectoryError
        | Some (File data) =>
            match utf8_decode data with
            | None => Raise UnicodeDecodeError
            | Some text => Ok (iter_lines text [])
            end
        end).

(** [p.write_text(s, encoding="utf-8")]: the file is opened for writing,
    which creates or truncates it, then the encoded text is written. *)
Definition write_text (p : Path) (s : str) : M unit :=
  fun w =>
    match fs w p with
    | Some Dir => (w, Raise IsADirectoryError)
    | _ =>
        match utf8_encode (translate_newlines linesep s) with
        | Some data =>
            (mkWorld (sys_argv w) (fs_update (fs w) p (File data)) (stdout w),
             Ok tt)
        | None =>
            (mkWorld (sys_argv w) (fs_update (fs w) p (File [])) (stdout w),
             Raise UnicodeEncodeError)
        end
    end.

End World.

Notation "x <-- m ;; k" := (mbind m (fun x => k))
  (at level 61, m at next level, right associativity) : py_scope.
Notation "m ;;; k" := (mbind m (fun _ => k))
  (at level 61, right associativity) : py_scope.

(* ===================================================================== *)
(** * Part 2. The program *)
(* ===================================================================== *)

Local Open Scope py_scope.

Section Program.
Context {PF : PyFloat} {PJ : PyJson PF} {PL : Platform}.

(** ** [load_messages]

    One turn of the loop [for line in f]: [messages] is the list being
    built, and the result is the list after the turn.  [continue] leaves
    it as it is.  The handler names [json.JSONDecodeError]: any other
    exception of [json.loads] leaves the loop. *)
Definition load_step (messages : list json) (line : str)
  : result (list json) :=
  let line := strip line in
  if negb (truthy line) then Ok messages
  else
    match json_loads line with
    | Loaded j => Ok (messages ++ [j])     (* messages.append(...) *)
    | JSONDecodeError => Ok messages       (* except: continue     *)
    | Raised r => Raise (exn_of_loads_error r)     (* not handled  *)
    end.

(** The turns of the loop over [lines], from the list [messages]. *)
Fixpoint load_loop (lines : list str) (messages : list json)
  : result (list json) :=
  match lines with
  | [] => Ok messages
  | line :: rest =>
      messages' <- load_step messages line ;;
      load_loop rest messages'
  end.

(** The whole loop, from [messages = []]. *)
Definition load_lines (lines : list str) : result (list json) :=
  load_loop lines [].

Definition load_messages (jsonl_path : Path) : M (list json) :=
  lines <-- open_lines jsonl_path ;;
  lift (load_lines lines).

(** ** [summarize] *)

(** [sum(1 for m in messages if m.get("role") == role)], with [acc] the
    running sum. *)
Fixpoint count_role (role : str) (messages : list json) (acc : nat)
  : result nat :=
  match messages with
  | [] => Ok acc
  | m :: rest =>
      r <- py_get m (lit "role") JNone ;;
      count_role role rest (if eq_str r role then acc + 1 else acc)
  end.

Definition summarize (messages : list json) : result str :=
  let total := List.length messages in
  if total =? 0 then
    Ok (lit "# Analysis" ++ nl ++ nl ++ lit "No messages found.")
  else
    first <- match messages with
             | m0 :: _ => py_get m0 (lit "text") (JStr [])
             | [] => Ok (JStr [])
             end ;;
    last <- match messages with
            | _ :: _ => py_get (last messages JNone) (lit "text") (JStr [])
            | [] => Ok (JStr [])
            end ;;
    users <- count_role (lit "user") messages 0 ;;
    chars <- count_role (lit "char") messages 0 ;;
    Ok (lit "# Analysis" ++ nl ++ nl
        ++ lit "Total messages: " ++ str_of_nat total ++ nl ++ nl
        ++ lit "User messages: " ++ str_of_nat users ++ nl
        ++ lit "Character messages: " ++ str_of_nat chars ++ nl ++ nl
        ++ lit "## First message" ++ nl
        ++ py_str first ++ nl ++ nl
        ++ lit "## Last message" ++ nl
        ++ py_str last ++ nl).

(** ** [main] *)

Definition main : M unit :=
  argv <-- get_argv ;;
  if List.length argv <? 2 then
    print (lit "Usage: python analyzer.py <transcript.jsonl>") ;;;
    sys_exit 1
  else
    let jsonl_path := expanduser (mkPath (nth 1 argv [])) in
    found <-- path_exists jsonl_path ;;
    if negb found then
      print (lit "File not found: " ++ path_str jsonl_path) ;;;
      sys_exit 2
    else
      messages <-- load_messages jsonl_path ;;
      summary <-- lift (summarize messages) ;;
      let out_dir := parent jsonl_path in
      let summary_path := joinpath out_dir (lit "summary.md") in
      write_text summary_path summary ;;;
      print (lit "Wrote summary to " ++ path_str summary_path) ;;;
      sys_exit 0.

(** The exit status of the process that ran [main()] as a script: the
    code of a [SystemExit], 1 after any other exception that nothing
    caught, 0 when [main] returns. *)
Definition exit_status (r : result unit) : Z :=
  match r with
  | inr _ => 0
  | inl (SystemExit code) => code
  | inl _ => 1
  end.

Definition run (w : World) : World * Z :=
  let (w', r) := main w in (w', exit_status r).

End Program.

(* ===================================================================== *)
(** * Part 3. A reference runtime *)
(* ===================================================================== *)

(** The properties of Part 4 hold for every implementation of the
    interfaces of Part 1.  This part gives one, to run the program on
    concrete transcripts: a decoder that follows CPython's [json] scanner
    and a model of POSIX paths. *)

Module Ref.

(** A [float] is kept as the text of its literal; rounding to a double
    and the shortest [repr] are outside the model. *)
Inductive literal_float : Type :=
| FLit (text : str)
| FNaN
| FInf
| FNegInf.

#[export] Instance ref_float : PyFloat := {|
  pyfloat := literal_float;
  float_repr f :=
    match f with
    | FLit text => text
    | FNaN => lit "nan"
    | FInf => lit "inf"
    | FNegInf => lit "-inf"
    end
|}.

Definition ch (a : ascii) : codepoint := N_of_ascii a.

(** The double quote. *)
Definition dquote : codepoint := 34%N.

(** The white space the decoder skips: space, tab, line feed, carriage
    return. *)
Definition json_ws (c : codepoint) : bool :=
  ((c =? 32) || (c =? 9) || (c =? 10) || (c =? 13))%N.

Fixpoint skip_ws (s : str) : str :=
  match s with
  | c :: s' => if json_ws c then skip_ws s' else s
  | [] => []
  end.

Inductive parse (A : Type) : Type :=
| Parsed (a : A) (rest : str)
| Invalid
| Fails (r : loads_error)
| OutOfFuel.
Arguments Parsed {A}.
Arguments Invalid {A}.
Arguments Fails {A}.
Arguments OutOfFuel {A}.

Definition hexval (c : codepoint) : option N :=
  (if in_range 48 57 c then Some (c - 48)
   else if in_range 97 102 c then Some (c - 87)
   else if in_range 65 70 c then Some (c - 55)
   else None)%N.

Definition hex4 (a b c d : codepoint) : option N :=
  match hexval a, hexval b, hexval c, hexval d with
  | Some x, Some y, Some z, Some w => Some (((x * 16 + y) * 16 + z) * 16 + w)%N
  | _, _, _, _ => None
  end.

Definition simple_escape (c : codepoint) : option codepoint :=
  (if c =? dquote then Some (dquote)
   else if c =? ch "\" then Some (ch "\")
   else if c =? ch "/" then Some (ch "/")
   else if c =? ch "b" then Some 8
   else if c =? ch "f" then Some 12
   else if c =? ch "n" then Some 10
   else if c =? ch "r" then Some 13
   else if c =? ch "t" then Some 9
   else None)%N.

(** Four hexadecimal digits and what follows them. *)
Definition take_hex4 (s : str) : option (N * str) :=
  match s with
  | h1 :: h2 :: h3 :: h4 :: rest =>
      match hex4 h1 h2 h3 h4 with
      | Some v => Some (v, rest)
      | None => None
      end
  | _ => None
  end.

(** What one turn of the loop of [scanstring] finds: the closing quote,
    one character of the text, or an error. *)
Inductive piece : Type :=
| Close (rest : str)
| Char (c : codepoint) (rest : str)
| Bad.

(** After [\u]: the code unit, joined with a low surrogate escape when
    it is a high surrogate and one follows. *)
Definition scan_u (s : str) : piece :=
  match take_hex4 s with
  | None => Bad
  | Some (uni, s3) =>
      if in_range 55296 56319 uni then
        match s3 with
        | b :: u :: s3' =>
            if ((b =? ch "\") && (u =? ch "u"))%N then
              match take_hex4 s3' with
              | None => Bad
              | Some (uni2, s4) =>
                  if in_range 56320 57343 uni2
                  then Char (65536 + (uni - 55296) * 1024 + (uni2 - 56320))%N s4
                  else Char uni s3
              end
            else Char uni s3
        | _ => Char uni s3
        end
      else Char uni s3
  end.

Definition scan_piece (s : str) : piece :=
  match s with
  | [] => Bad                                  (* unterminated *)
  | c :: s1 =>
      if (c =? dquote)%N then Close s1
      else if (c <? 32)%N then Bad             (* control character *)
      else if (c =? ch "\")%N then
        match s1 with
        | [] => Bad
        | e :: s2 =>
            if (e =? ch "u")%N then scan_u s2
            else match simple_escape e with
                 | Some x => Char x s2
                 | None => Bad
                 end
        end
      else Char c s1
  end.

(** [scanstring]: [s] starts after the opening quote, [acc] is the text
    decoded so far, [fuel] bounds the turns of the loop. *)
Fixpoint scanstring (fuel : nat) (s acc : str) : parse str :=
  match fuel with
  | O => OutOfFuel
  | S fuel' =>
      match scan_piece s with
      | Close rest => Parsed acc rest
      | Char c rest => scanstring fuel' rest (acc ++ [c])
      | Bad => Invalid
      end
  end.

Definition is_digit (c : codepoint) : bool := in_range 48 57 c.

(** The longest prefix of digits and what follows it. *)
Fixpoint span_digits (s : str) : str * str :=
  match s with
  | c :: s' =>
      if is_digit c then let (d, r) := span_digits s' in (c :: d, r)
      else ([], s)
  | [] => ([], [])
  end.

Fixpoint nat_of_digits (d : str) (acc : N) : N :=
  match d with
  | [] => acc
  | c :: d' => nat_of_digits d' (acc * 10 + (c - 48))%N
  end.

(** The fraction [.digits] of a number, when the text has one. *)
Definition match_frac (s : str) : option (str * str) :=
  match s with
  | dot :: s1 =>
      if (dot =? ch ".")%N then
        match span_digits s1 with
        | ([], _) => None
        | (d, r) => Some (dot :: d, r)
        end
      else None
  | [] => None
  end.

(** The exponent [e], sign, digits of a number, when the text has one. *)
Definition match_exp (s : str) : option (str * str) :=
  match s with
  | e :: s1 =>
      if ((e =? ch "e") || (e =? ch "E"))%N then
        let (sign, s2) :=
          match s1 with
          | sg :: s2 =>
              if ((sg =? ch "-") || (sg =? ch "+"))%N then ([sg], s2)
              else ([], s1)
          | [] => ([], s1)
          end in
        match span_digits s2 with
        | ([], _) => None
        | (d, r) => Some (e :: sign ++ d, r)
        end
      else None
  | [] => None
  end.

(** [sys.get_int_max_str_digits()]: [int] refuses to convert a literal
    with more digits. *)
Definition int_max_str_digits : nat := 4300.

(** A number: an optional minus sign, then either a single zero or a
    non-zero digit followed by digits, then an optional fraction and an
    optional exponent; an [int] when it has neither of the two, and then
    [ValueError] when it has too many digits. *)
Definition match_number (s : str) : parse (@json ref_float) :=
  let (neg, s0) :=
    match s with
    | c :: s' => if (c =? ch "-")%N then (true, s') else (false, s)
    | [] => (false, s)
    end in
  let int_part :=
    match s0 with
    | c :: s1 =>
        if (c =? ch "0")%N then Some ([c], s1)
        else if in_range 49 57 c then
          let (d, r) := span_digits s1 in Some (c :: d, r)
        else None
    | [] => None
    end in
  match int_part with
  | None => Invalid
  | Some (ds, r0) =>
      let (frac, r1) :=
        match match_frac r0 with Some (f, r) => (f, r) | None => ([], r0) end in
      let (ex, r2) :=
        match match_exp r1 with Some (x, r) => (x, r) | None => ([], r1) end in
      match frac, ex with
      | [], [] =>
          if int_max_str_digits <? List.length ds then Fails TooManyDigits
          else
            let n := Z.of_N (nat_of_digits ds 0) in
            Parsed (JInt (if neg then - n else n)%Z) r2
      | _, _ =>
          Parsed (JFloat (FLit ((if neg then [ch "-"] else []) ++ ds
                                ++ frac ++ ex))) r2
      end
  end.

(** [s] continues with the literal [w]. *)
Fixpoint eat (w s : str) : option str :=
  match w, s with
  | [], _ => Some s
  | a :: w', b :: s' => if (a =? b)%N then eat w' s' else None
  | _ :: _, [] => None
  end.

(** [d[k] = v] on the items of a [dict]: a key that is there keeps its
    place. *)
Fixpoint dict_set (items : list (str * @json ref_float)) (k : str)
  (v : @json ref_float) : list (str * json) :=
  match items with
  | [] => [(k, v)]
  | (k', v') :: rest =>
      if str_eqb k' k then (k', v) :: rest
      else (k', v') :: dict_set rest k v
  end.

(** The scanner.  [scan_once] reads one value; [array_items] and
    [object_items] are the loops over the elements of a list and the
    pairs of an object, entered after the opening bracket and the white
    space behind it, when that is not the closing bracket.  [fuel] bounds
    the number of calls. *)
Fixpoint scan_once (fuel : nat) (s : str) : parse (@json ref_float) :=
  match fuel with
  | O => OutOfFuel
  | S fuel' =>
      match s with
      | [] => Invalid
      | c :: s1 =>
          if (c =? dquote)%N then
            match scanstring (S (List.length s1)) s1 [] with
            | Parsed t r => Parsed (JStr t) r
            | Invalid => Invalid
            | Fails e => Fails e
            | OutOfFuel => OutOfFuel
            end
          else if (c =? ch "{")%N then
            match skip_ws s1 with
            | c' :: r =>
                if (c' =? ch "}")%N then Parsed (JDict []) r
                else object_items fuel' (skip_ws s1) []
            | [] => Invalid
            end
          else if (c =? ch "[")%N then
            match skip_ws s1 with
            | c' :: r =>
                if (c' =? ch "]")%N then Parsed (JList []) r
                else array_items fuel' (skip_ws s1) []
            | [] => Invalid
            end
          else if (c =? ch "n")%N then
            match eat (lit "ull") s1 with
            | Some r => Parsed JNone r
            | None => Invalid
            end
          else if (c =? ch "t")%N then
            match eat (lit "rue") s1 with
            | Some r => Parsed (JBool true) r
            | None => Invalid
            end
          else if (c =? ch "f")%N then
            match eat (lit "alse") s1 with
            | Some r => Parsed (JBool false) r
            | None => Invalid
            end
          else if (c =? ch "N")%N then
            match eat (lit "aN") s1 with
            | Some r => Parsed (JFloat FNaN) r
            | None => Invalid
            end
          else if (c =? ch "I")%N then
            match eat (lit "nfinity") s1 with
            | Some r => Parsed (JFloat FInf) r
            | None => Invalid
            end
          else if (c =? ch "-")%N then
            match eat (lit "Infinity") s1 with
            | Some r => Parsed (JFloat FNegInf) r
            | None => match_number s
            end
          else match_number s
      end
  end

with array_items (fuel : nat) (s : str) (acc : list (@json ref_float))
  : parse (@json ref_float) :=
  match fuel with
  | O => OutOfFuel
  | S fuel' =>
      match scan_once fuel' s with
      | Parsed v r =>
          match skip_ws r with
          | c :: r' =>
              if (c =? ch "]")%N then Parsed (JList (acc ++ [v])) r'
              else if (c =? ch ",")%N
              then array_items fuel' (skip_ws r') (acc ++ [v])
              else Invalid
          | [] => Invalid
          end
      | Invalid => Invalid
      | Fails e => Fails e
      | OutOfFuel => OutOfFuel
      end
  end

with object_items (fuel : nat) (s : str) (acc : list (str * @json ref_float))
  : parse (@json ref_float) :=
  match fuel with
  | O => OutOfFuel
  | S fuel' =>
      match s with
      | q :: s1 =>
          if (q =? dquote)%N then
            match scanstring (S (List.length s1)) s1 [] with
            | Parsed key r0 =>
                match skip_ws r0 with
                | colon :: r1 =>
                    if (colon =? ch ":")%N then
                      match scan_once fuel' (skip_ws r1) with
                      | Parsed v r2 =>
                          match skip_ws r2 with
                          | c :: r3 =>
                              if (c =? ch "}")%N
                              then Parsed (JDict (dict_set acc key v)) r3
                              else if (c =? ch ",")%N
                              then object_items fuel' (skip_ws r3)
                                     (dict_set acc key v)
                              else Invalid
                          | [] => Invalid
                          end
                      | Invalid => Invalid
                      | Fails e => Fails e
                      | OutOfFuel => OutOfFuel
                      end
                    else Invalid
                | [] => Invalid
                end
            | Invalid => Invalid
            | Fails e => Fails e
            | OutOfFuel => OutOfFuel
            end
          else Invalid
      | [] => Invalid
      end
  end.

(** [json.loads(s)]: white space, one value, white space, and nothing
    else.  The [ValueError] of an integer literal with too many digits is
    part of the reference.  The [RecursionError] of values nested deeper
    than the interpreter's stack allows is not: how deep that is depends
    on the interpreter and on the stack at the call, and the reference
    reads values of any depth.  The theorems on the program are proved for
    every [PyJson], with either exception; the reference is used on texts
    nested one level deep. *)
Definition loads (s : str) : @loads_result ref_float :=
  match scan_once (2 * List.length s + 1) (skip_ws s) with
  | Parsed j rest =>
      match skip_ws rest with
      | [] => Loaded j
      | _ :: _ => JSONDecodeError
      end
  | Invalid => JSONDecodeError
  | Fails e => Raised e
  | OutOfFuel => JSONDecodeError
  end.

(** [repr] of a [str], for text of printable ASCII: single quotes unless
    the text has a single quote and no double quote; backslash and the
    chosen quote escaped.  Other characters are left as they are (the
    tables that say which are printable are outside the model). *)
Definition ref_str_repr (s : str) : str :=
  let has c := existsb (N.eqb c) s in
  let quote := if has (ch "'") && negb (has (dquote)) then dquote
               else ch "'" in
  [quote]
  ++ flat_map (fun c =>
       if ((c =? quote) || (c =? ch "\"))%N then [ch "\"; c]
       else if (c =? 10)%N then [ch "\"; ch "n"]
       else if (c =? 13)%N then [ch "\"; ch "r"]
       else if (c =? 9)%N then [ch "\"; ch "t"]
       else [c]) s
  ++ [quote].

#[export] Instance ref_json : PyJson ref_float := {|
  json_loads := loads;
  str_repr := ref_str_repr
|}.

(** *** POSIX paths

    A path is a root flag and its components.  [Path(s)] drops empty
    components and ["."]; [expanduser] replaces a leading ["~"] by the
    home directory. *)

Record posix_path : Type := mkPosix {
  rooted : bool;
  parts : list str
}.

Definition posix_path_eq_dec (p q : posix_path) : {p = q} + {p <> q}.
Proof.
  decide equality.
  - apply (list_eq_dec (list_eq_dec N.eq_dec)).
  - apply Bool.bool_dec.
Defined.

Definition posix_parse (s : str) : posix_path :=
  mkPosix
    (match s with c :: _ => (c =? ch "/")%N | [] => false end)
    (filter (fun part => negb (str_eqb part []) && negb (str_eqb part (lit ".")))
            (split_on (ch "/") s [])).

Definition posix_str (p : posix_path) : str :=
  if rooted p then ch "/" :: join (lit "/") (parts p)
  else match parts p with
       | [] => lit "."
       | _ :: _ => join (lit "/") (parts p)
       end.

Definition posix_parent (p : posix_path) : posix_path :=
  mkPosix (rooted p) (removelast (parts p)).

Definition posix_join (p : posix_path) (name : str) : posix_path :=
  let q := posix_parse name in
  if rooted q then q else mkPosix (rooted p) (parts p ++ parts q).

Definition posix_expanduser (home : str) (p : posix_path) : posix_path :=
  match rooted p, parts p with
  | false, first :: rest =>
      if str_eqb first (lit "~") then posix_join (posix_parse home) (join (lit "/") rest)
      else p
  | _, _ => p
  end.

Definition posix (home : str) : Platform := {|
  Path := posix_path;
  Path_eq_dec := posix_path_eq_dec;
  mkPath := posix_parse;
  expanduser := posix_expanduser home;
  parent := posix_parent;
  joinpath := posix_join;
  path_str := posix_str;
  linesep := nl
|}.

#[export] Instance ref_platform : Platform := posix (lit "/home/user").

(** A file system given by the list of its entries. *)
Fixpoint fs_of (entries : list (str * node)) : @FS ref_platform :=
  match entries with
  | [] => fun _ => None
  | (name, n) :: rest => fs_update (fs_of rest) (posix_parse name) n
  end.

(** JSON text written with apostrophes for its double quotes. *)
Definition json_text (s : string) : str :=
  map (fun c => if (c =? ch "'")%N then dquote else c) (lit s).

(** The bytes of ASCII text. *)
Definition ascii_bytes (s : str) : bytes := map byte_of_N s.

(** What a scanner result says about the text [s] it was given: a
    value was read and the text left is shorter, or the text is invalid;
    the fuel did not run out. *)
Definition consumed {A : Type} (res : parse A) (s : str) : Prop :=
  match res with
  | Parsed _ r => List.length r < List.length s
  | Invalid => True
  | Fails _ => True
  | OutOfFuel => False
  end.

End Ref.

(* ===================================================================== *)
(** * Part 4. The vocabulary of the specification *)
(* ===================================================================== *)

Definition digit_char (c : codepoint) : Prop := (48 <= c <= 57)%N.

Fixpoint filter_map {A B : Type} (f : A -> option B) (l : list A) : list B :=
  match l with
  | [] => []
  | a :: l' =>
      match f a with
      | Some b => b :: filter_map f l'
      | None => filter_map f l'
      end
  end.

Section Vocabulary.
Context {PF : PyFloat} {PJ : PyJson PF}.

(** A line is blank when trimming leaves nothing. *)
Definition nonblank (line : str) : bool := truthy (strip line).

(** The value of a line that parses. *)
Definition parse_line (line : str) : option json :=
  match json_loads (strip line) with
  | Loaded j => Some j
  | JSONDecodeError => None
  | Raised _ => None
  end.

(** A line that yields a record: not blank, and its trimmed text parses. *)
Definition parseable (line : str) : bool :=
  nonblank line && match parse_line line with Some _ => true | None => false end.

(** The loader as the specification words it: the values of the lines
    that parse, among the lines that are not blank, in the order of the
    lines. *)
Definition parsed_records (lines : list str) : list json :=
  filter_map parse_line (filter nonblank lines).

(** The exception that [json.loads] raises on a line, if it raises one
    that is not [json.JSONDecodeError]; a blank line is not parsed. *)
Definition raising (line : str) : option exn :=
  if nonblank line then
    match json_loads (strip line) with
    | Raised r => Some (exn_of_loads_error r)
    | _ => None
    end
  else None.

(** The exception of the first line that raises one. *)
Fixpoint first_raise (lines : list str) : option exn :=
  match lines with
  | [] => None
  | line :: rest =>
      match raising line with
      | Some e => Some e
      | None => first_raise rest
      end
  end.

(** The text field of a record: its value, or the empty text when the
    record has none. *)
Definition text_of (m : json) : json :=
  match m with
  | JDict items =>
      match lookup (lit "text") items with
      | Some v => v
      | None => JStr []
      end
  | _ => JStr []
  end.

(** The record has a role field and its value is the text [role]. *)
Definition role_is (role : str) (m : json) : bool :=
  match m with
  | JDict items =>
      match lookup (lit "role") items with
      | Some (JStr r) => str_eqb r role
      | _ => false
      end
  | _ => false
  end.

Definition count_records (role : str) (messages : list json) : nat :=
  List.length (filter (role_is role) messages).

(** The two layouts of section 4.3, line by line. *)
Definition empty_layout : str :=
  join nl [lit "# Analysis"; []; lit "No messages found."].

Definition layout (total users chars : nat) (first last : str) : str :=
  join nl [lit "# Analysis";
           [];
           lit "Total messages: " ++ str_of_nat total;
           [];
           lit "User messages: " ++ str_of_nat users;
           lit "Character messages: " ++ str_of_nat chars;
           [];
           lit "## First message";
           first;
           [];
           lit "## Last message";
           last;
           []].

Definition all_dicts (messages : list json) : Prop :=
  Forall (fun m => is_dict m = true) messages.

End Vocabulary.

Section Paths.
Context {PL : Platform}.

(** The path [main] reads and the path it writes, for the argument
    [arg]. *)
Definition input_path (arg : str) : Path := expanduser (mkPath arg).
Definition output_path (arg : str) : Path :=
  joinpath (parent (input_path arg)) (lit "summary.md").

Definition usage_line : str := lit "Usage: python analyzer.py <transcript.jsonl>".

Definition printed (w : World) (line : str) : World :=
  mkWorld (sys_argv w) (fs w) (stdout w ++ [line]).

Definition written (w : World) (p : Path) (data : bytes) : World :=
  mkWorld (sys_argv w) (fs_update (fs w) p (File data)) (stdout w).

End Paths.

(** ** The inputs of the concrete runs *)

Module Scenario.
Import Ref.

(** The transcript of the scenario: two records, a blank line, a line
    that is not JSON, a third record. *)
Definition transcript_source : str :=
  json_text "{'role':'user','text':'hi'}
{'role':'char','text':'hello'}

not json
{'role':'user','text':'bye'}
".

Definition transcript : bytes := ascii_bytes transcript_source.

(** The lines the loop sees when it reads the transcript. *)
Definition transcript_lines : list str :=
  iter_lines transcript_source [].

Definition record (role text : string) : json :=
  JDict [(lit "role", JStr (lit role)); (lit "text", JStr (lit text))].

Definition records : list json :=
  [record "user" "hi"; record "char" "hello"; record "user" "bye"].

Definition summary_text : str :=
  lit "# Analysis

Total messages: 3

User messages: 2
Character messages: 1

## First message
hi

## Last message
bye
".

(** The script called on [/data/chat.jsonl]. *)
Definition world (content : bytes) : World :=
  mkWorld [lit "analyzer.py"; lit "/data/chat.jsonl"]
    (fs_of [(lit "/data/chat.jsonl", File content)])
    [].

Definition chat : Path := posix_parse (lit "/data/chat.jsonl").
Definition summary_md : Path := posix_parse (lit "/data/summary.md").

(** A file of a blank line and a line that is not JSON. *)
Definition no_records : list str := [nl; lit "not json" ++ nl].

(** A JSON text with a form feed and a space before it, a no-break space
    and the line feed after it. *)
Definition padding_before : str := [12; 32]%N.
Definition padded_value : str := json_text "{'a': 1}".
Definition padding_after : str := [160; 10]%N.



(** The script called without argument, and on a file that is not
    there. *)
Definition no_argument : World :=
  mkWorld [lit "analyzer.py"] (fs_of []) [].

Definition missing_file : World :=
  mkWorld [lit "analyzer.py"; lit "~/nothing.jsonl"] (fs_of []) [].

End Scenario.

(** Further inputs: records with other fields, a text that cannot be
    encoded, a line that is not an object, a directory. *)

Module Scenario2.
Import Ref Scenario.

(** The records of the scenario with other fields added, the text of the
    middle record taken away and the fields in another order. *)
Definition annotated_records : list json :=
  [JDict [(lit "id", JInt 1); (lit "role", JStr (lit "user"));
          (lit "text", JStr (lit "hi"))];
   JDict [(lit "role", JStr (lit "char"))];
   JDict [(lit "text", JStr (lit "bye")); (lit "role", JStr (lit "user"));
          (lit "tags", JList [])]].

(** A record whose text is a lone surrogate, which UTF-8 cannot encode. *)
Definition surrogate_transcript : bytes :=
  ascii_bytes (json_text "{'role':'user','text':'\ud800'}
").

(** A good record, then a line that parses to a number. *)
Definition mixed_source : str :=
  json_text "{'role':'user','text':'hi'}
42
".

(** The script called on a directory. *)
Definition directory_world : World :=
  mkWorld [lit "analyzer.py"; lit "/data"] (fs_of [(lit "/data", Dir)]) [].

End Scenario2.

(* ===================================================================== *)
(** * Part 5. Properties *)
(* ===================================================================== *)

(** ** Text *)

Lemma str_eqb_eq (a b : str) : str_eqb a b = true <-> a = b.
Proof.
  unfold str_eqb. destruct (list_eq_dec N.eq_dec a b); split; congruence.
Qed.

Lemma str_eqb_refl (a : str) : str_eqb a a = true.
Proof. now apply str_eqb_eq. Qed.

Lemma split_on_acc (sep : codepoint) (a cur : str) :
  Forall (fun c => c <> sep) a ->
  forall b, split_on sep (a ++ sep :: b) cur = (cur ++ a) :: split_on sep b [].
Proof.
  intros Ha. revert cur.
  induction Ha as [|c a Hc Ha IH]; intros cur b; simpl.
  - rewrite N.eqb_refl, app_nil_r. reflexivity.
  - destruct (N.eqb_spec c sep) as [->|_]; [contradiction|].
    rewrite IH, <- app_assoc. reflexivity.
Qed.

Lemma split_on_last (sep : codepoint) (a cur : str) :
  Forall (fun c => c <> sep) a -> split_on sep a cur = [cur ++ a].
Proof.
  intros Ha. revert cur.
  induction Ha as [|c a Hc Ha IH]; intros cur; simpl.
  - now rewrite app_nil_r.
  - destruct (N.eqb_spec c sep) as [->|_]; [contradiction|].
    rewrite IH, <- app_assoc. reflexivity.
Qed.

(** A line feed ends a line: the text before it, when it has no line
    feed of its own, is the first line. *)
Lemma split_on_line (a b : str) :
  Forall (fun c => c <> 10%N) a ->
  split_on 10%N (a ++ nl ++ b) [] = a :: split_on 10%N b [].
Proof. intros Ha. apply (split_on_acc 10%N a [] Ha). Qed.

Lemma string_of_uint_digits (d : Decimal.uint) :
  Forall digit_char (lit (NilEmpty.string_of_uint d)).
Proof.
  induction d; simpl; constructor; try assumption;
    unfold digit_char; simpl; lia.
Qed.

Lemma str_of_nat_digits (n : nat) : Forall digit_char (str_of_nat n).
Proof.
  unfold str_of_nat, NilZero.string_of_uint.
  destruct (Nat.to_uint n) eqn:E; try apply string_of_uint_digits.
  repeat constructor; unfold digit_char; simpl; lia.
Qed.

Lemma str_of_nat_no_nl (n : nat) : Forall (fun c => c <> 10%N) (str_of_nat n).
Proof.
  eapply Forall_impl; [|apply str_of_nat_digits].
  unfold digit_char. intros c Hc. lia.
Qed.

(** ** [str.strip] *)

Lemma lstrip_space (ws s : str) :
  Forall (fun c => isspace c = true) ws -> lstrip (ws ++ s) = lstrip s.
Proof.
  induction 1 as [|c ws Hc _ IH]; simpl; [reflexivity|].
  now rewrite Hc.
Qed.

Lemma lstrip_length (s : str) : List.length (lstrip s) <= List.length s.
Proof.
  induction s as [|c s IH]; simpl; [lia|].
  destruct (isspace c); simpl; lia.
Qed.

Lemma lstrip_fixed (s : str) :
  lstrip s = s \/ List.length (lstrip s) < List.length s.
Proof.
  destruct s as [|c s]; simpl; [now left|].
  destruct (isspace c); [right|now left].
  pose proof (lstrip_length s). lia.
Qed.

Lemma lstrip_app_fixed (v s : str) :
  v <> [] -> lstrip v = v -> lstrip (v ++ s) = v ++ s.
Proof.
  destruct v as [|c v]; [congruence|]. simpl. intros _ H.
  destruct (isspace c); [|reflexivity].
  pose proof (lstrip_length v) as L. rewrite H in L. simpl in L. lia.
Qed.

Lemma rstrip_length (s : str) : List.length (rstrip s) <= List.length s.
Proof.
  unfold rstrip. rewrite length_rev.
  pose proof (lstrip_length (rev s)) as L. now rewrite length_rev in L.
Qed.

(** Text that [strip] leaves alone is left alone by both halves. *)
Lemma strip_fixed (v : str) :
  strip v = v -> lstrip v = v /\ rstrip v = v.
Proof.
  unfold strip. intros H.
  destruct (lstrip_fixed v) as [E|L].
  - rewrite E in H. now split.
  - pose proof (rstrip_length (lstrip v)) as R. rewrite H in R. lia.
Qed.

(** White space around a text that has none at its ends is what [strip]
    removes. *)
Lemma strip_padded (ws1 v ws2 : str) :
  Forall (fun c => isspace c = true) ws1 ->
  Forall (fun c => isspace c = true) ws2 ->
  v <> [] -> strip v = v ->
  strip (ws1 ++ v ++ ws2) = v.
Proof.
  intros H1 H2 Hne Hv.
  destruct (strip_fixed v Hv) as [Hl Hr].
  unfold strip. rewrite (lstrip_space ws1 _ H1), (lstrip_app_fixed v ws2 Hne Hl).
  unfold rstrip in *. rewrite rev_app_distr, lstrip_space.
  - exact Hr.
  - apply Forall_rev. exact H2.
Qed.

(** ** Text files

    What [utf8_encode] writes, [utf8_decode] reads back. *)

Lemma byte_to_of (n : N) : (n < 256)%N -> Byte.to_N (byte_of_N n) = n.
Proof.
  intros H. unfold byte_of_N. destruct (Byte.of_N n) eqn:E.
  - now apply Byte.to_of_N.
  - apply Byte.of_N_None_iff in E. lia.
Qed.

Lemma some_inj {A : Type} (x y : A) : Some x = Some y -> x = y.
Proof. congruence. Qed.

(** Decides the comparisons of a goal by arithmetic. *)
Ltac decide_tests :=
  repeat match goal with
    | |- context [N.eqb ?a ?b] =>
        first [ replace (N.eqb a b) with true by (symmetry; apply N.eqb_eq; lia)
              | replace (N.eqb a b) with false by (symmetry; apply N.eqb_neq; lia) ]
    | |- context [N.ltb ?a ?b] =>
        first [ replace (N.ltb a b) with true by (symmetry; apply N.ltb_lt; lia)
              | replace (N.ltb a b) with false by (symmetry; apply N.ltb_ge; lia) ]
    | |- context [N.leb ?a ?b] =>
        first [ replace (N.leb a b) with true by (symmetry; apply N.leb_le; lia)
              | replace (N.leb a b) with false by (symmetry; apply N.leb_gt; lia) ]
    end;
  cbn [andb].

Lemma utf8_cp_roundtrip (c : codepoint) (b : bytes) (rest : list N) :
  utf8_encode_cp c = Some b ->
  utf8_decode_N (map Byte.to_N b ++ rest)
  = option_map (cons c) (utf8_decode_N rest).
Proof.
  unfold utf8_encode_cp.
  pose proof (N.div_mod' c 64) as E0.
  pose proof (N.mod_lt c 64 ltac:(discriminate)) as R0.
  pose proof (N.div_mod' (c / 64) 64) as E1.
  pose proof (N.mod_lt (c / 64) 64 ltac:(discriminate)) as R1.
  pose proof (N.div_mod' (c / 4096) 64) as E2.
  pose proof (N.mod_lt (c / 4096) 64 ltac:(discriminate)) as R2.
  assert (D1 : (c / 64 / 64 = c / 4096)%N) by (now rewrite N.Div0.div_div).
  assert (D2 : (c / 4096 / 64 = c / 262144)%N) by (now rewrite N.Div0.div_div).
  rewrite D1 in E1. rewrite D2 in E2. clear D1 D2.
  set (q0 := (c / 64)%N) in *. set (r0 := (c mod 64)%N) in *.
  set (q1 := (c / 4096)%N) in *. set (r1 := (q0 mod 64)%N) in *.
  set (q2 := (c / 262144)%N) in *. set (r2 := (q1 mod 64)%N) in *.
  clearbody q0 r0 q1 r1 q2 r2.
  destruct (N.ltb_spec c 128).
  { intros Hb; apply some_inj in Hb; subst b; cbn [map app].
    rewrite byte_to_of by lia.
    cbn [utf8_decode_N]. decide_tests. reflexivity. }
  destruct (N.ltb_spec c 2048).
  { intros Hb; apply some_inj in Hb; subst b; cbn [map app].
    rewrite !byte_to_of by lia.
    cbn [utf8_decode_N]. unfold in_range. decide_tests.
    f_equal. f_equal. lia. }
  destruct (N.ltb_spec c 65536).
  { destruct (N.leb_spec 55296 c); destruct (N.leb_spec c 57343);
      cbn [andb]; try discriminate;
      intros Hb; apply some_inj in Hb; subst b; cbn [map app];
      rewrite !byte_to_of by lia;
      cbn [utf8_decode_N]; unfold in_range;
      destruct (N.eq_dec q1 0); destruct (N.eq_dec q1 13); decide_tests;
      f_equal; f_equal; lia. }
  destruct (N.ltb_spec c 1114112); [|discriminate].
  intros Hb; apply some_inj in Hb; subst b; cbn [map app].
  rewrite !byte_to_of by lia.
  cbn [utf8_decode_N]. unfold in_range.
  destruct (N.eq_dec q2 0); destruct (N.eq_dec q2 4); decide_tests;
    f_equal; f_equal; lia.
Qed.

Lemma utf8_roundtrip (s : str) (b : bytes) :
  utf8_encode s = Some b -> utf8_decode b = Some s.
Proof.
  unfold utf8_decode. revert b.
  induction s as [|c s IH]; intros b; simpl.
  - intros [= <-]. reflexivity.
  - destruct (utf8_encode_cp c) as [bc|] eqn:Ec; [|discriminate].
    destruct (utf8_encode s) as [bs|]; [|discriminate].
    intros [= <-]. rewrite map_app, (utf8_cp_roundtrip c bc _ Ec).
    now rewrite (IH bs eq_refl).
Qed.

Lemma translate_newlines_posix (s : str) : translate_newlines nl s = s.
Proof.
  induction s as [|c s IH]; simpl; [reflexivity|].
  destruct (N.eqb_spec c 10) as [->|_]; simpl; now rewrite IH.
Qed.

(** ** The loader *)

Lemma filter_map_app {A B : Type} (f : A -> option B) (l1 l2 : list A) :
  filter_map f (l1 ++ l2) = filter_map f l1 ++ filter_map f l2.
Proof.
  induction l1 as [|a l1 IH]; simpl; [reflexivity|].
  destruct (f a); simpl; now rewrite IH.
Qed.

Lemma filter_map_length {A B : Type} (f : A -> option B) (l : list A) :
  List.length (filter_map f l)
  = List.length (filter (fun a => match f a with Some _ => true | None => false end) l).
Proof.
  induction l as [|a l IH]; simpl; [reflexivity|].
  destruct (f a); simpl; now rewrite IH.
Qed.

Section Loader.
Context {PF : PyFloat} {PJ : PyJson PF}.

Lemma parsed_records_app (l1 l2 : list str) :
  parsed_records (l1 ++ l2) = parsed_records l1 ++ parsed_records l2.
Proof.
  unfold parsed_records. now rewrite filter_app, filter_map_app.
Qed.

Lemma first_raise_app (l1 l2 : list str) :
  first_raise (l1 ++ l2)
  = match first_raise l1 with
    | Some e => Some e
    | None => first_raise l2
    end.
Proof.
  induction l1 as [|line l1 IH]; simpl; [reflexivity|].
  destruct (raising line); [reflexivity|exact IH].
Qed.


(** One turn: the exception of the line, or the list with the record of
    the line, if it has one. *)
Lemma load_step_record (messages : list json) (line : str) :
  load_step messages line
  = match raising line with
    | Some e => Raise e
    | None => Ok (messages ++ parsed_records [line])
    end.
Proof.
  unfold load_step, raising, parsed_records, nonblank, parse_line. simpl.
  destruct (truthy (strip line)); simpl.
  - destruct (json_loads (strip line)); simpl;
      [reflexivity | now rewrite app_nil_r | reflexivity].
  - now rewrite app_nil_r.
Qed.

Lemma load_loop_records (lines : list str) :
  forall messages,
    load_loop lines messages
    = match first_raise lines with
      | Some e => Raise e
      | None => Ok (messages ++ parsed_records lines)
      end.
Proof.
  induction lines as [|line lines IH]; intros messages; simpl.
  - unfold parsed_records. simpl. now rewrite app_nil_r.
  - rewrite load_step_record. destruct (raising line); [reflexivity|].
    simpl. rewrite IH. destruct (first_raise lines); [reflexivity|].
    rewrite <- app_assoc. now rewrite <- parsed_records_app.
Qed.

(** The loop stops at the first line on which [json.loads] raises, and
    otherwise computes the records of the specification. *)
Lemma load_lines_records (lines : list str) :
  load_lines lines
  = match first_raise lines with
    | Some e => Raise e
    | None => Ok (parsed_records lines)
    end.
Proof. unfold load_lines. now rewrite load_loop_records. Qed.

Lemma load_lines_ok (lines : list str) (messages : list json) :
  load_lines lines = Ok messages ->
  first_raise lines = None /\ messages = parsed_records lines.
Proof.
  rewrite load_lines_records. destruct (first_raise lines); [discriminate|].
  intros H. split; [reflexivity|]. unfold Ok in H. congruence.
Qed.

(** The loop raises nothing but what [json.loads] raises. *)
Lemma load_lines_exn (lines : list str) (e : exn) :
  load_lines lines = inl e -> e = ValueError \/ e = RecursionError.
Proof.
  rewrite load_lines_records.
  destruct (first_raise lines) as [e'|] eqn:E; [|discriminate].
  intros [= <-]. induction lines as [|line lines IH]; [discriminate|].
  simpl in E. destruct (raising line) as [e0|] eqn:R; [|now apply IH].
  injection E as <-. unfold raising in R.
  destruct (nonblank line); [|discriminate].
  destruct (json_loads (strip line)) as [j| |[]]; try discriminate;
    injection R as <-; auto.
Qed.

Lemma load_lines_app (l1 l2 : list str) :
  load_lines (l1 ++ l2)
  = (a <- load_lines l1 ;; b <- load_lines l2 ;; Ok (a ++ b)).
Proof.
  rewrite !load_lines_records, first_raise_app.
  destruct (first_raise l1); [reflexivity|]. simpl.
  destruct (first_raise l2); [reflexivity|]. simpl.
  now rewrite parsed_records_app.
Qed.

Lemma parsed_records_length (lines : list str) :
  List.length (parsed_records lines) = List.length (filter parseable lines).
Proof.
  unfold parsed_records. rewrite filter_map_length.
  induction lines as [|line lines IH]; simpl; [reflexivity|].
  unfold parseable at 1.
  destruct (nonblank line); simpl; [|exact IH].
  destruct (parse_line line); simpl; now rewrite IH.
Qed.

(** The number of records is the number of lines that parse. *)
Lemma load_lines_length (lines : list str) (messages : list json) :
  load_lines lines = Ok messages ->
  List.length messages = List.length (filter parseable lines).
Proof.
  intros H. destruct (load_lines_ok _ _ H) as [_ ->].
  apply parsed_records_length.
Qed.

(** A blank line is skipped. *)
Lemma load_lines_blank (line : str) :
  strip line = [] -> load_lines [line] = Ok [].
Proof.
  intros H. unfold load_lines. simpl. unfold load_step. now rewrite H.
Qed.

(** A line that is not blank and does not parse is skipped. *)
Lemma load_lines_malformed (line : str) :
  json_loads (strip line) = JSONDecodeError -> load_lines [line] = Ok [].
Proof.
  intros H. unfold load_lines. simpl. unfold load_step. rewrite H.
  now destruct (truthy (strip line)).
Qed.

(** A line that is not blank and parses yields its value. *)
Lemma load_lines_parsed (line : str) (j : json) :
  strip line <> [] -> json_loads (strip line) = Loaded j ->
  load_lines [line] = Ok [j].
Proof.
  intros Hne H. unfold load_lines. simpl. unfold load_step. rewrite H.
  destruct (strip line); [congruence|reflexivity].
Qed.

(** A line on which [json.loads] raises another exception stops the
    loop. *)
Lemma load_lines_raised (line : str) (r : loads_error) :
  strip line <> [] -> json_loads (strip line) = Raised r ->
  load_lines [line] = Raise (exn_of_loads_error r).
Proof.
  intros Hne H. unfold load_lines. simpl. unfold load_step. rewrite H.
  destruct (strip line); [congruence|reflexivity].
Qed.

End Loader.

Section LoaderProperties.
Context {PF : PyFloat} {PJ : PyJson PF} {PL : Platform}.


(** C10. A line made of a JSON text [v] with white space around it is
    trimmed before the blank test and before parsing: the loader parses
    it and the value of [v] is the record of that line, between the
    records of the lines before it and those of the lines after it; an
    exception that the lines before or after it raise is raised with the
    line among them as without it. *)
Theorem load_lines_strips_padding :
  forall (before after : list str) (ws1 v ws2 : str) (j : json),
    Forall (fun c => isspace c = true) ws1 ->
    Forall (fun c => isspace c = true) ws2 ->
    v <> [] -> strip v = v ->
    json_loads v = Loaded j ->
    load_lines (before ++ [ws1 ++ v ++ ws2] ++ after)
    = (b <- load_lines before ;;
       a <- load_lines after ;;
       Ok (b ++ [j] ++ a)).
Proof.
  intros before after ws1 v ws2 j H1 H2 Hne Hv Hj.
  rewrite !load_lines_app.
  rewrite (load_lines_parsed (ws1 ++ v ++ ws2) j)
    by (rewrite (strip_padded ws1 v ws2 H1 H2 Hne Hv); assumption).
  destruct (load_lines before); [reflexivity|]. simpl.
  destruct (load_lines after); reflexivity.
Qed.

End LoaderProperties.

(** ** The summarizer *)

Lemma last_default {A : Type} (l : list A) (d d' : A) :
  l <> [] -> last l d = last l d'.
Proof.
  induction l as [|a l IH]; [congruence|]. intros _.
  destruct l as [|b l]; [reflexivity|].
  change (last (b :: l) d = last (b :: l) d'). apply IH. discriminate.
Qed.

Lemma Forall_last {A : Type} (P : A -> Prop) (l : list A) (d : A) :
  l <> [] -> Forall P l -> P (last l d).
Proof.
  intros Hne H. induction H as [|a l Ha H IH]; [congruence|].
  destruct l as [|b l]; [exact Ha|].
  change (P (last (b :: l) d)). apply IH. discriminate.
Qed.

Section Summarizer.
Context {PF : PyFloat} {PJ : PyJson PF}.

Lemma py_get_dict (m : json) (key : str) (default : json) :
  is_dict m = true ->
  exists items,
    m = JDict items
    /\ py_get m key default
       = Ok (match lookup key items with Some v => v | None => default end).
Proof.
  destruct m; simpl; try discriminate. intros _. now exists items.
Qed.

Lemma py_get_not_dict (m : json) (key : str) (default : json) :
  is_dict m = false ->
  py_get m key default = Raise (AttributeError (type_name m) (lit "get")).
Proof. destruct m; simpl; try discriminate; reflexivity. Qed.

Lemma py_get_text (m : json) :
  is_dict m = true -> py_get m (lit "text") (JStr []) = Ok (text_of m).
Proof. destruct m; simpl; try discriminate; reflexivity. Qed.

Lemma role_test (m : json) (role : str) :
  is_dict m = true ->
  exists r, py_get m (lit "role") JNone = Ok r /\ eq_str r role = role_is role m.
Proof.
  destruct m; simpl; try discriminate. intros _.
  destruct (lookup (lit "role") items) as [v|]; eexists; split;
    try reflexivity.
Qed.

Lemma count_role_dicts (role : str) (messages : list json) :
  all_dicts messages ->
  forall acc,
    count_role role messages acc = Ok (acc + count_records role messages).
Proof.
  unfold count_records.
  induction 1 as [|m rest Hm _ IH]; intros acc; simpl.
  - now rewrite Nat.add_0_r.
  - destruct (role_test m role Hm) as (r & -> & E). simpl. rewrite E.
    rewrite IH. destruct (role_is role m); simpl; f_equal; lia.
Qed.

Lemma count_role_raises (role : str) (messages : list json) :
  ~ all_dicts messages ->
  forall acc,
    exists t, count_role role messages acc = Raise (AttributeError t (lit "get")).
Proof.
  induction messages as [|m rest IH]; intros Hn acc.
  - exfalso. apply Hn. constructor.
  - simpl. destruct (is_dict m) eqn:Hm.
    + destruct (role_test m role Hm) as (r & -> & _). simpl.
      apply IH. intros H. apply Hn. now constructor.
    + rewrite (py_get_not_dict m _ _ Hm). simpl. now eexists.
Qed.

(** What [summarize] returns for records that are all objects. *)
Lemma summarize_dicts (m0 : json) (rest : list json) :
  all_dicts (m0 :: rest) ->
  summarize (m0 :: rest)
  = Ok (layout (List.length (m0 :: rest))
          (count_records (lit "user") (m0 :: rest))
          (count_records (lit "char") (m0 :: rest))
          (py_str (text_of m0))
          (py_str (text_of (last (m0 :: rest) m0)))).
Proof.
  intros H. unfold summarize.
  change (List.length (m0 :: rest) =? 0) with false. cbv iota.
  rewrite py_get_text by (now inversion H).
  rewrite (last_default (m0 :: rest) JNone m0) by discriminate.
  rewrite py_get_text by (apply Forall_last; [discriminate|exact H]).
  rewrite !(count_role_dicts _ _ H). unfold rbind, Ok, layout.
  cbn [join Nat.add]. rewrite <- !app_assoc. reflexivity.
Qed.

(** What it does when a record is not an object. *)
Lemma summarize_raises (messages : list json) :
  messages <> [] -> ~ all_dicts messages ->
  exists t, summarize messages = Raise (AttributeError t (lit "get")).
Proof.
  intros Hne Hn. destruct messages as [|m0 rest]; [congruence|].
  unfold summarize.
  change (List.length (m0 :: rest) =? 0) with false. cbv iota.
  destruct (is_dict m0) eqn:H0;
    [|rewrite (py_get_not_dict m0 _ _ H0); simpl; now eexists].
  rewrite (py_get_text m0 H0). cbn [rbind Ok].
  destruct (is_dict (last (m0 :: rest) JNone)) eqn:Hl;
    [|rewrite (py_get_not_dict _ _ _ Hl); simpl; now eexists].
  rewrite (py_get_text _ Hl). cbn [rbind Ok].
  destruct (count_role_raises (lit "user") (m0 :: rest) Hn 0) as [t ->].
  simpl. now eexists.
Qed.

Lemma all_dicts_dec (messages : list json) :
  {all_dicts messages} + {~ all_dicts messages}.
Proof.
  apply Forall_dec. intros m. destruct (is_dict m); [now left|now right].
Qed.

End Summarizer.

Lemma no_nl_check (s : str) :
  forallb (fun c => negb (c =? 10)%N) s = true ->
  Forall (fun c => c <> 10%N) s.
Proof.
  intros H. apply Forall_forall. intros c Hc.
  rewrite forallb_forall in H. specialize (H c Hc).
  destruct (N.eqb_spec c 10); [discriminate|assumption].
Qed.

Lemma join_cons (sep a : str) (rest : list str) :
  rest <> [] -> join sep (a :: rest) = a ++ sep ++ join sep rest.
Proof. destruct rest; [congruence|reflexivity]. Qed.

(** The first line of a text laid out line by line. *)
Lemma split_join_line (a : str) (rest : list str) :
  Forall (fun c => c <> 10%N) a -> rest <> [] ->
  split_on 10%N (join nl (a :: rest)) [] = a :: split_on 10%N (join nl rest) [].
Proof.
  intros Ha Hne. rewrite (join_cons nl a rest Hne). now apply split_on_line.
Qed.

Ltac no_nl :=
  repeat first
    [ apply Forall_nil
    | apply str_of_nat_no_nl
    | apply Forall_app; split
    | apply no_nl_check; reflexivity ].

Section SummarizerProperties.
Context {PF : PyFloat} {PJ : PyJson PF}.

(** The first eight lines of the layout are its header, whatever the two
    message texts are. *)
Lemma layout_lines (total users chars : nat) (first last : str) :
  exists tail,
    split_on 10%N (layout total users chars first last) []
    = lit "# Analysis"
      :: []
      :: (lit "Total messages: " ++ str_of_nat total)
      :: []
      :: (lit "User messages: " ++ str_of_nat users)
      :: (lit "Character messages: " ++ str_of_nat chars)
      :: []
      :: lit "## First message"
      :: tail.
Proof.
  eexists. unfold layout.
  do 8 (rewrite split_join_line; [apply f_equal | no_nl | discriminate]).
  reflexivity.
Qed.

(** Every record is in exactly one of three groups: role "user", role
    "char", neither. *)
Lemma roles_partition (messages : list json) :
  count_records (lit "user") messages + count_records (lit "char") messages
  + List.length (filter (fun m => negb (role_is (lit "user") m)
                                  && negb (role_is (lit "char") m)) messages)
  = List.length messages.
Proof.
  unfold count_records. induction messages as [|m rest IH]; simpl; [reflexivity|].
  assert (D : role_is (lit "user") m = true -> role_is (lit "char") m = false).
  { unfold role_is. destruct m; try discriminate.
    destruct (lookup (lit "role") items) as [[]|]; try discriminate.
    intros E. apply str_eqb_eq in E. subst s. reflexivity. }
  destruct (role_is (lit "user") m) eqn:U.
  - rewrite (D eq_refl). simpl. lia.
  - destruct (role_is (lit "char") m); simpl; lia.
Qed.

(** A summary comes only from records that are all objects. *)
Lemma summarize_ok_dicts (messages : list json) (out : str) :
  summarize messages = Ok out -> all_dicts messages.
Proof.
  intros H. destruct (all_dicts_dec messages) as [Hd|Hn]; [exact Hd|].
  assert (Hne : messages <> []) by (intros ->; apply Hn; constructor).
  destruct (summarize_raises messages Hne Hn) as [t Ht].
  rewrite Ht in H. discriminate.
Qed.

(** C1, amended.  For every transcript that the loader reads to the end,
    with N >= 1 parsed records, N being the number of lines that are not
    blank and parse, the summary
    has the line "Total messages: N", and its lines "User messages: U"
    and "Character messages: C" carry the numbers of records whose role
    field is the text "user" and the text "char"; every other record,
    with another role or none, is in neither count.  The summary is there
    whenever the records are objects. *)
Theorem summarize_counts :
  forall (lines : list str) (messages : list json),
    load_lines lines = Ok messages ->
    let total := List.length (filter parseable lines) in
    let users := count_records (lit "user") messages in
    let chars := count_records (lit "char") messages in
    let others :=
      List.length (filter (fun m => negb (role_is (lit "user") m)
                                    && negb (role_is (lit "char") m)) messages) in
    1 <= total ->
    List.length messages = total
    /\ users + chars + others = total
    /\ (all_dicts messages -> exists out, summarize messages = Ok out)
    /\ (forall out : str,
          summarize messages = Ok out ->
          has_line out (lit "Total messages: " ++ str_of_nat total)
          /\ has_line out (lit "User messages: " ++ str_of_nat users)
          /\ has_line out (lit "Character messages: " ++ str_of_nat chars)).
Proof.
  intros lines messages Hload total users chars others Hpos.
  assert (Hlen : List.length messages = total)
    by (now apply load_lines_length).
  clear Hload.
  split; [exact Hlen|]. split.
  { unfold users, chars, others. rewrite roles_partition. exact Hlen. }
  subst users chars.
  destruct messages as [|m0 rest]; [simpl in Hlen; lia|].
  split.
  { intros Hd. eexists. apply (summarize_dicts m0 rest Hd). }
  intros out Hout.
  pose proof (summarize_ok_dicts _ _ Hout) as Hd.
  rewrite (summarize_dicts m0 rest Hd), Hlen in Hout.
  assert (E : out = layout total (count_records (lit "user") (m0 :: rest))
                      (count_records (lit "char") (m0 :: rest))
                      (py_str (text_of m0))
                      (py_str (text_of (last (m0 :: rest) m0))))
    by (unfold Ok in Hout; congruence).
  rewrite E. unfold has_line.
  destruct (layout_lines total (count_records (lit "user") (m0 :: rest))
              (count_records (lit "char") (m0 :: rest))
              (py_str (text_of m0))
              (py_str (text_of (last (m0 :: rest) m0)))) as [tail ->].
  cbn [In]. repeat split.
  - right; right; left; reflexivity.
  - do 4 right; left; reflexivity.
  - do 5 right; left; reflexivity.
Qed.

(** [summarize] by cases on the records. *)
Lemma summarize_cases (messages : list json) :
  (messages = [] -> summarize messages = Ok empty_layout)
  /\ (messages <> [] -> all_dicts messages ->
      summarize messages
      = Ok (layout (List.length messages)
              (count_records (lit "user") messages)
              (count_records (lit "char") messages)
              (py_str (text_of (hd JNone messages)))
              (py_str (text_of (last messages JNone)))))
  /\ (messages <> [] -> ~ all_dicts messages ->
      exists t, summarize messages = Raise (AttributeError t (lit "get"))).
Proof.
  split; [|split].
  - intros ->. reflexivity.
  - intros Hne Hd. destruct messages as [|m0 rest]; [congruence|].
    rewrite (summarize_dicts m0 rest Hd).
    now rewrite (last_default (m0 :: rest) m0 JNone) by discriminate.
  - apply summarize_raises.
Qed.

(** C3. The summary is a function of the records alone, those the
    loader returned, and has one of two fixed forms.  For a transcript with no line that parses (an
    empty file, blank lines, malformed lines) it is exactly the text
    "# Analysis", an empty line, "No messages found.", with no line feed
    at the end.  For a transcript with parsed records, all objects, it
    is the layout of section 4.3 filled with the counts and the two
    texts: each heading and each empty line at its place, and a line
    feed after the last text.  [summarize] returns nothing else: a
    record that is not an object makes it raise. *)
Theorem summarize_layout :
  forall (lines : list str) (messages : list json),
    load_lines lines = Ok messages ->
    (List.length (filter parseable lines) = 0 ->
     summarize messages = Ok (lit "# Analysis

No messages found."))
    /\ (1 <= List.length (filter parseable lines) -> all_dicts messages ->
        summarize messages
        = Ok (layout (List.length messages)
                (count_records (lit "user") messages)
                (count_records (lit "char") messages)
                (py_str (text_of (hd JNone messages)))
                (py_str (text_of (last messages JNone)))))
    /\ (forall out, summarize messages = Ok out ->
        out = empty_layout
        \/ out = layout (List.length messages)
                   (count_records (lit "user") messages)
                   (count_records (lit "char") messages)
                   (py_str (text_of (hd JNone messages)))
                   (py_str (text_of (last messages JNone)))).
Proof.
  intros lines messages Hload.
  pose proof (load_lines_length lines messages Hload) as Hlen. clear Hload.
  destruct (summarize_cases messages) as (He & Hd & Hr).
  split; [|split].
  - intros H0. rewrite H0 in Hlen. apply length_zero_iff_nil in Hlen.
    rewrite (He Hlen). reflexivity.
  - intros H1 Hall. apply Hd; [|exact Hall].
    intros E. rewrite E in Hlen. simpl in Hlen. lia.
  - intros out Hout. destruct messages as [|m0 rest] eqn:E.
    + left. rewrite (He eq_refl) in Hout. now injection Hout as <-.
    + right. destruct (all_dicts_dec (m0 :: rest)) as [Hall|Hn].
      * rewrite (Hd ltac:(discriminate) Hall) in Hout. now injection Hout as <-.
      * destruct (Hr ltac:(discriminate) Hn) as [t Ht].
        rewrite Ht in Hout. discriminate.
Qed.

(** C4. For every transcript that is not empty, the text under
    "## First message" in the summary is the value of the text field of
    the first record and the text under "## Last message" that of the
    last record, the empty text standing for a field that is not there.
    The summary is there whenever the records are objects. *)
Theorem summarize_first_last :
  forall (m0 : json) (rest : list json),
    (all_dicts (m0 :: rest) -> exists out, summarize (m0 :: rest) = Ok out)
    /\ (forall out : str,
          summarize (m0 :: rest) = Ok out ->
          exists head,
            out = head
                  ++ lit "## First message" ++ nl
                  ++ py_str (text_of m0) ++ nl ++ nl
                  ++ lit "## Last message" ++ nl
                  ++ py_str (text_of (last (m0 :: rest) m0)) ++ nl).
Proof.
  intros m0 rest. split.
  { intros Hd. eexists. apply (summarize_dicts m0 rest Hd). }
  intros out Hout.
  pose proof (summarize_ok_dicts _ _ Hout) as Hd.
  rewrite (summarize_dicts m0 rest Hd) in Hout.
  assert (E : out = layout (List.length (m0 :: rest))
                      (count_records (lit "user") (m0 :: rest))
                      (count_records (lit "char") (m0 :: rest))
                      (py_str (text_of m0))
                      (py_str (text_of (last (m0 :: rest) m0))))
    by (unfold Ok in Hout; congruence).
  rewrite E.
  exists (lit "# Analysis" ++ nl ++ nl
          ++ lit "Total messages: " ++ str_of_nat (List.length (m0 :: rest))
          ++ nl ++ nl
          ++ lit "User messages: "
          ++ str_of_nat (count_records (lit "user") (m0 :: rest)) ++ nl
          ++ lit "Character messages: "
          ++ str_of_nat (count_records (lit "char") (m0 :: rest)) ++ nl ++ nl).
  unfold layout. cbn [join]. rewrite <- !app_assoc. reflexivity.
Qed.

(** C5, amended.  [summarize] completes exactly on the transcripts whose
    records are all JSON objects; it asks nothing of the fields of an
    object, a missing role counting for neither group and a missing text
    being the empty text.  A record that is another JSON value (a number,
    a text, a list, a boolean, null) makes it raise [AttributeError]. *)
Theorem summarize_completes_iff_objects :
  forall messages : list json,
    (all_dicts messages -> exists out, summarize messages = Ok out)
    /\ (~ all_dicts messages ->
        exists t, summarize messages = Raise (AttributeError t (lit "get"))).
Proof.
  intros messages. split.
  - intros Hd. destruct messages as [|m0 rest].
    + now eexists.
    + eexists. apply (summarize_dicts m0 rest Hd).
  - intros Hn. apply summarize_raises; [|exact Hn].
    intros ->. apply Hn. constructor.
Qed.

End SummarizerProperties.

(** ** The command line *)

Section CommandLine.
Context {PF : PyFloat} {PJ : PyJson PF} {PL : Platform}.

Lemma fs_update_same (f : FS) (p : Path) (n : node) :
  fs_update f p n p = Some n.
Proof. unfold fs_update. destruct (Path_eq_dec p p); congruence. Qed.

Lemma fs_update_other (f : FS) (p q : Path) (n : node) :
  q <> p -> fs_update f p n q = f q.
Proof. unfold fs_update. intros H. destruct (Path_eq_dec p q); congruence. Qed.

Lemma fs_update_twice (f : FS) (p q : Path) (n : node) :
  fs_update (fs_update f p n) p n q = fs_update f p n q.
Proof. unfold fs_update. destruct (Path_eq_dec p q); reflexivity. Qed.

Lemma argv_1 (argv : list str) :
  (List.length argv <? 2) = false ->
  exists arg, nth_error argv 1 = Some arg /\ nth 1 argv [] = arg.
Proof.
  intros H. apply Nat.ltb_ge in H.
  destruct argv as [|a0 [|a1 argv]]; simpl in H; try lia.
  now exists a1.
Qed.

Lemma argv_1_length (argv : list str) (arg : str) :
  nth_error argv 1 = Some arg ->
  (List.length argv <? 2) = false /\ nth 1 argv [] = arg.
Proof.
  destruct argv as [|a0 [|a1 argv]]; simpl; try discriminate.
  intros [= ->]. now split.
Qed.

(** [main] path by path: what it leaves behind and how it ends. *)
Lemma main_cases (w : World) :
  main w =
  if List.length (sys_argv w) <? 2 then
    (printed w usage_line, Raise (SystemExit 1))
  else
    let arg := nth 1 (sys_argv w) [] in
    match fs w (input_path arg) with
    | None =>
        (printed w (lit "File not found: " ++ path_str (input_path arg)),
         Raise (SystemExit 2))
    | Some Dir => (w, Raise IsADirectoryError)
    | Some (File data) =>
        match utf8_decode data with
        | None => (w, Raise UnicodeDecodeError)
        | Some text =>
            match load_lines (iter_lines text []) with
            | inl e => (w, inl e)
            | inr messages =>
            match summarize messages with
            | inl e => (w, inl e)
            | inr summary =>
                match fs w (output_path arg) with
                | Some Dir => (w, Raise IsADirectoryError)
                | _ =>
                    match utf8_encode (translate_newlines linesep summary) with
                    | Some out =>
                        (printed (written w (output_path arg) out)
                           (lit "Wrote summary to "
                            ++ path_str (output_path arg)),
                         Raise (SystemExit 0))
                    | None =>
                        (written w (output_path arg) [],
                         Raise UnicodeEncodeError)
                    end
                end
            end
            end
        end
    end.
Proof.
  unfold main, mbind, get_argv, Ok. cbv beta iota.
  destruct (List.length (sys_argv w) <? 2); [reflexivity|].
  unfold path_exists, load_messages, mbind, open_lines, mret, lift,
    write_text, output_path, input_path, print, sys_exit, printed, written,
    Ok, Raise.
  cbv beta iota zeta.
  set (p := expanduser (mkPath (nth 1 (sys_argv w) []))).
  destruct (fs w p) as [[data|]|] eqn:Hf; cbv beta iota delta [negb];
    rewrite ?Hf; try reflexivity.
  destruct (utf8_decode data) as [text|]; [|reflexivity].
  destruct (load_lines (iter_lines text [])) as [e|messages]; [reflexivity|].
  destruct (summarize messages) as [e|summary]; [reflexivity|].
  destruct (fs w (joinpath (parent p) (lit "summary.md"))) as [[old|]|];
    try reflexivity;
    destruct (utf8_encode (translate_newlines linesep summary)); reflexivity.
Qed.

(** [summarize] raises nothing but [AttributeError]. *)
Lemma summarize_exn (messages : list json) (e : exn) :
  summarize messages = inl e -> exists t a, e = AttributeError t a.
Proof.
  intros H. destruct (all_dicts_dec messages) as [Hd|Hn].
  - destruct messages as [|m0 rest]; [discriminate|].
    rewrite (summarize_dicts m0 rest Hd) in H. discriminate.
  - assert (Hne : messages <> []) by (intros ->; apply Hn; constructor).
    destruct (summarize_raises messages Hne Hn) as [t Ht].
    rewrite Ht in H. injection H as <-. now eexists _, _.
Qed.

Lemma load_messages_inv (p : Path) (w w' : World) (messages : list json) :
  load_messages p w = (w', Ok messages) ->
  exists data text,
    fs w p = Some (File data) /\ utf8_decode data = Some text
    /\ load_lines (iter_lines text []) = Ok messages.
Proof.
  unfold load_messages, mbind, open_lines, lift, Ok, Raise.
  destruct (fs w p) as [[data|]|]; try discriminate.
  destruct (utf8_decode data) as [text|] eqn:Hd; try discriminate.
  intros [= _ H]. exists data, text. repeat split; assumption.
Qed.

(** The status of a run that the loader stopped. *)
Lemma load_lines_exit_status (lines : list str) (e : exn) :
  load_lines lines = inl e ->
  exit_status (inl e) = 1%Z /\ forall code, e <> SystemExit code.
Proof.
  intros H. destruct (load_lines_exn _ _ H) as [-> | ->];
    (split; [reflexivity|discriminate]).
Qed.

(** C6. The process ends with status 1, having printed the usage line
    and written nothing, when the argument is missing; with status 2,
    having printed "File not found: " and the path and written nothing,
    when nothing exists at the path of the argument; and with status 0
    when the file is read, summarized and the summary written. *)
Theorem main_exit_codes :
  forall w : World,
    (List.length (sys_argv w) < 2 ->
     run w
     = (mkWorld (sys_argv w) (fs w)
          (stdout w ++ [lit "Usage: python analyzer.py <transcript.jsonl>"]),
        1%Z))
    /\ (forall arg : str,
          nth_error (sys_argv w) 1 = Some arg ->
          fs w (input_path arg) = None ->
          run w
          = (mkWorld (sys_argv w) (fs w)
               (stdout w
                ++ [lit "File not found: " ++ path_str (input_path arg)]),
             2%Z))
    /\ (forall (arg : str) (messages : list json) (summary : str)
               (out : bytes),
          nth_error (sys_argv w) 1 = Some arg ->
          load_messages (input_path arg) w = (w, Ok messages) ->
          summarize messages = Ok summary ->
          fs w (output_path arg) <> Some Dir ->
          utf8_encode (translate_newlines linesep summary) = Some out ->
          snd (run w) = 0%Z).
Proof.
  intros w. unfold run. rewrite main_cases. split; [|split].
  - intros H. apply Nat.ltb_lt in H. rewrite H. reflexivity.
  - intros arg Ha Hf. destruct (argv_1_length _ _ Ha) as [-> ->].
    cbv zeta. rewrite Hf. reflexivity.
  - intros arg messages summary out Ha Hl Hs Hd He.
    destruct (argv_1_length _ _ Ha) as [-> ->]. cbv zeta.
    destruct (load_messages_inv _ _ _ _ Hl) as (data & text & -> & -> & Hll).
    unfold Ok in Hs, Hll. rewrite Hll, Hs, He.
    destruct (fs w (output_path arg)) as [[old|]|]; try reflexivity.
    congruence.
Qed.

(** C7. Every run that ends with status 0 has written the summary,
    encoded in UTF-8 (so that decoding the file gives the text back), to
    "summary.md" in the parent of the input path, whatever was or was not
    at that path before, has touched no other path, and has printed one
    line, "Wrote summary to " and the output path, and nothing else. *)
Theorem main_writes_summary :
  forall w w' : World,
    run w = (w', 0%Z) ->
    exists (arg : str) (messages : list json) (summary : str) (out : bytes),
      nth_error (sys_argv w) 1 = Some arg
      /\ load_messages (input_path arg) w = (w, Ok messages)
      /\ summarize messages = Ok summary
      /\ utf8_encode (translate_newlines linesep summary) = Some out
      /\ utf8_decode out = Some (translate_newlines linesep summary)
      /\ fs w' (joinpath (parent (input_path arg)) (lit "summary.md"))
         = Some (File out)
      /\ (forall q : Path,
            q <> joinpath (parent (input_path arg)) (lit "summary.md") ->
            fs w' q = fs w q)
      /\ stdout w'
         = stdout w
           ++ [lit "Wrote summary to "
               ++ path_str (joinpath (parent (input_path arg))
                              (lit "summary.md"))].
Proof.
  intros w w'. unfold run. rewrite main_cases.
  destruct (List.length (sys_argv w) <? 2) eqn:Hn; [discriminate|].
  destruct (argv_1 _ Hn) as (arg & Ha & ->). cbv zeta.
  destruct (fs w (input_path arg)) as [[data|]|] eqn:Hf; try discriminate.
  destruct (utf8_decode data) as [text|] eqn:Hd; try discriminate.
  destruct (load_lines (iter_lines text [])) as [e|messages] eqn:Hll.
  { destruct (load_lines_exit_status _ _ Hll) as [E _]. simpl snd.
    rewrite E. discriminate. }
  destruct (summarize messages) as [e|summary] eqn:Hs.
  { destruct (summarize_exn _ _ Hs) as (t & a & ->). discriminate. }
  assert (Hl : load_messages (input_path arg) w = (w, Ok messages)).
  { unfold load_messages, mbind, open_lines, lift, Ok. rewrite Hf, Hd.
    cbv beta iota. now rewrite Hll. }
  fold (output_path arg).
  destruct (fs w (output_path arg)) as [[old|]|] eqn:Ho; try discriminate;
    destruct (utf8_encode (translate_newlines linesep summary)) as [out|] eqn:He;
    try discriminate;
    intros [= <-];
    exists arg, messages, summary, out;
    (repeat split; try assumption; try reflexivity;
     [now apply utf8_roundtrip | apply fs_update_same
     | intros q Hq; now apply fs_update_other]).
Qed.

(** C9. The summary that loading and summarizing produce depends on
    the world through the bytes of the input file only; and a second run
    on an input file that the first run left as it was leaves every file,
    "summary.md" among them, with the bytes it had after the first run,
    and ends with the same status. *)
Theorem run_twice_same_summary :
  (forall (p : Path) (w w' : World),
      fs w p = fs w' p ->
      snd ((messages <-- load_messages p ;; lift (summarize messages)) w)
      = snd ((messages <-- load_messages p ;; lift (summarize messages)) w'))
  /\ (forall (w w1 w2 : World) (c1 c2 : Z),
        run w = (w1, c1) ->
        run w1 = (w2, c2) ->
        (forall arg : str,
            nth_error (sys_argv w) 1 = Some arg ->
            fs w1 (input_path arg) = fs w (input_path arg)) ->
        (forall q : Path, fs w2 q = fs w1 q) /\ c2 = c1).
Proof.
  split.
  { intros p w w' Hp.
    unfold load_messages, mbind, open_lines, lift, Ok. rewrite Hp.
    destruct (fs w' p) as [[data|]|]; try reflexivity.
    destruct (utf8_decode data) as [text|]; [|reflexivity].
    cbv beta iota.
    destruct (load_lines (iter_lines text [])); reflexivity. }
  intros w w1 w2 c1 c2. unfold run. rewrite !main_cases.
  destruct (List.length (sys_argv w) <? 2) eqn:Hn.
  { intros [= <- <-]. simpl sys_argv. rewrite Hn.
    intros [= <- <-] _. now split. }
  destruct (argv_1 _ Hn) as (arg & Ha & Harg). rewrite Harg. cbv zeta.
  intros H1 H2 Hsame. specialize (Hsame arg Ha).
  destruct (fs w (input_path arg)) as [[data|]|] eqn:Hf.
  2:{ injection H1 as <- <-. rewrite Hn, Harg, Hf in H2.
      injection H2 as <- <-. now split. }
  2:{ injection H1 as <- <-. simpl in H2, Hsame.
      rewrite Hn, Harg, Hf in H2. injection H2 as <- <-. now split. }
  destruct (utf8_decode data) as [text|] eqn:Hd.
  2:{ injection H1 as <- <-. rewrite Hn, Harg, Hf, Hd in H2.
      injection H2 as <- <-. now split. }
  destruct (load_lines (iter_lines text [])) as [e|messages] eqn:Hll.
  { injection H1 as <- <-. rewrite Hn, Harg, Hf, Hd, Hll in H2.
    injection H2 as <- <-. now split. }
  destruct (summarize messages) as [e|summary] eqn:Hs.
  { injection H1 as <- <-. rewrite Hn, Harg, Hf, Hd, Hll, Hs in H2.
    injection H2 as <- <-. now split. }
  destruct (fs w (output_path arg)) as [[old|]|] eqn:Ho;
    destruct (utf8_encode (translate_newlines linesep summary)) as [out|] eqn:He;
    injection H1 as <- <-; simpl sys_argv in H2; simpl fs in H2, Hsame;
    rewrite Hn, Harg in H2; cbv zeta in H2;
    rewrite ?Hsame, ?Hf, ?Hd, ?Hll, ?Hs, ?fs_update_same, ?Ho, ?He in H2;
    injection H2 as <- <-; simpl fs; split; try reflexivity;
    intros q; now rewrite ?fs_update_twice.
Qed.

End CommandLine.

(** ** Further properties: [str.strip] and the loader *)

Lemma lstrip_all_space (l : str) :
  Forall (fun c => isspace c = true) l -> lstrip l = [].
Proof.
  intros H. rewrite <- (app_nil_r l). now rewrite (lstrip_space l [] H).
Qed.

Lemma lstrip_nil_space (l : str) :
  lstrip l = [] -> Forall (fun c => isspace c = true) l.
Proof.
  induction l as [|c l IH]; simpl; [constructor|].
  destruct (isspace c) eqn:E; [|discriminate]. intros H. constructor; auto.
Qed.

Lemma lstrip_app (l s : str) :
  lstrip l <> [] -> lstrip (l ++ s) = lstrip l ++ s.
Proof.
  induction l as [|c l IH]; simpl; [congruence|].
  destruct (isspace c); [exact IH|reflexivity].
Qed.

Lemma rstrip_space (x ws : str) :
  Forall (fun c => isspace c = true) ws -> rstrip (x ++ ws) = rstrip x.
Proof.
  intros H. unfold rstrip. rewrite rev_app_distr, lstrip_space; [reflexivity|].
  now apply Forall_rev.
Qed.

(** White space around a text never changes what [strip] returns. *)
Lemma strip_padded_any (ws1 l ws2 : str) :
  Forall (fun c => isspace c = true) ws1 ->
  Forall (fun c => isspace c = true) ws2 ->
  strip (ws1 ++ l ++ ws2) = strip l.
Proof.
  intros H1 H2. unfold strip. rewrite (lstrip_space ws1 _ H1).
  destruct (lstrip l) as [|c t] eqn:E.
  - rewrite lstrip_all_space; [reflexivity|].
    apply Forall_app. split; [now apply lstrip_nil_space|exact H2].
  - rewrite lstrip_app by congruence. rewrite E. now apply rstrip_space.
Qed.

Lemma filter_length_all {A : Type} (f : A -> bool) (l : list A) :
  List.length (filter f l) = List.length l <-> Forall (fun a => f a = true) l.
Proof.
  induction l as [|a l IH]; simpl; [split; [constructor|reflexivity]|].
  pose proof (filter_length_le f l) as L.
  destruct (f a) eqn:E; simpl.
  - split.
    + intros H. constructor; [exact E|]. apply IH. lia.
    + intros H. inversion H; subst. f_equal. now apply IH.
  - split; [lia|]. intros H. inversion H; congruence.
Qed.

Section MoreLoader.
Context {PF : PyFloat} {PJ : PyJson PF} {PL : Platform}.

Lemma parsed_records_cons (line : str) (lines : list str) :
  parsed_records (line :: lines)
  = parsed_records [line] ++ parsed_records lines.
Proof. apply (parsed_records_app [line] lines). Qed.

Lemma parsed_records_one (line : str) :
  parsed_records [line]
  = if parseable line
    then match json_loads (strip line) with
         | Loaded j => [j]
         | _ => []
         end
    else [].
Proof.
  unfold parsed_records, parseable, parse_line. simpl.
  destruct (nonblank line); simpl; [|reflexivity].
  destruct (json_loads (strip line)); reflexivity.
Qed.

Lemma parseable_quiet (line : str) :
  parseable line = true -> raising line = None.
Proof.
  unfold parseable, raising, parse_line.
  destruct (nonblank line); simpl; [|reflexivity].
  destruct (json_loads (strip line)); [reflexivity|reflexivity|discriminate].
Qed.

Lemma parsed_records_In (lines : list str) (j : json) :
  In j (parsed_records lines)
  <-> exists line,
        In line lines /\ strip line <> []
        /\ json_loads (strip line) = Loaded j.
Proof.
  induction lines as [|line lines IH].
  - split; [intros []|intros (l & [] & _)].
  - rewrite parsed_records_cons, in_app_iff, IH. split.
    + intros [H|(l & Hl & Hs & Hj)].
      * rewrite parsed_records_one in H. exists line.
        destruct (parseable line) eqn:P; [|destruct H].
        unfold parseable, nonblank in P.
        destruct (strip line) as [|c t] eqn:E; [discriminate|].
        destruct (json_loads (c :: t)) as [j'| |r]; try destruct H.
        subst j'. repeat split; [now left|discriminate].
        destruct H.
      * exists l. repeat split; auto. now right.
    + intros (l & [->|Hl] & Hs & Hj).
      * left. rewrite parsed_records_one. unfold parseable, nonblank, parse_line.
        rewrite Hj. destruct (strip l); [congruence|]. simpl. now left.
      * right. now exists l.
Qed.

(** X1. When the loader returns, a value is among the records exactly
    when some line of the file, not blank once trimmed, parses to it:
    the loader drops no line that parses and makes up no record. *)
Theorem load_lines_records_of_lines :
  forall (lines : list str) (messages : list json),
    load_lines lines = Ok messages ->
    forall j : json,
      In j messages
      <-> exists line,
            In line lines /\ strip line <> []
            /\ json_loads (strip line) = Loaded j.
Proof.
  intros lines messages H j. destruct (load_lines_ok _ _ H) as [_ ->].
  apply parsed_records_In.
Qed.

(** X2. The loader returns at most one record per line, and as many
    records as lines exactly when every line parses. *)
Theorem load_lines_at_most_one_per_line :
  forall (lines : list str) (messages : list json),
    load_lines lines = Ok messages ->
    List.length messages <= List.length lines
    /\ (List.length messages = List.length lines
        <-> Forall (fun line => parseable line = true) lines).
Proof.
  intros lines messages H. rewrite (load_lines_length _ _ H). split.
  - apply filter_length_le.
  - apply filter_length_all.
Qed.

Lemma parsed_records_filter (lines : list str) :
  parsed_records (filter parseable lines) = parsed_records lines.
Proof.
  induction lines as [|line lines IH]; [reflexivity|]. simpl.
  rewrite (parsed_records_cons line lines).
  destruct (parseable line) eqn:P.
  - now rewrite parsed_records_cons, IH.
  - rewrite IH, parsed_records_one, P. reflexivity.
Qed.

Lemma first_raise_filter (lines : list str) :
  first_raise (filter parseable lines) = None.
Proof.
  induction lines as [|line lines IH]; [reflexivity|]. simpl.
  destruct (parseable line) eqn:P; [|exact IH].
  simpl. now rewrite (parseable_quiet line P).
Qed.

(** X3. Deleting from a file the lines that are blank or malformed
    changes nothing of what the loader returns: the records of what is
    left are the records of the file. *)
Theorem load_lines_of_parseable_lines :
  forall (lines : list str) (messages : list json),
    load_lines lines = Ok messages ->
    load_lines (filter parseable lines) = Ok messages.
Proof.
  intros lines messages H. destruct (load_lines_ok _ _ H) as [_ ->].
  now rewrite load_lines_records, first_raise_filter, parsed_records_filter.
Qed.


(** X5. White space added before or after a line, whatever the line is,
    never changes the records: indentation, trailing blanks and the kind
    of line ending do not matter. *)
Theorem load_lines_ignores_padding :
  forall (before after : list str) (ws1 line ws2 : str),
    Forall (fun c => isspace c = true) ws1 ->
    Forall (fun c => isspace c = true) ws2 ->
    load_lines (before ++ [ws1 ++ line ++ ws2] ++ after)
    = load_lines (before ++ [line] ++ after).
Proof.
  intros before after ws1 line ws2 H1 H2.
  rewrite !load_lines_app.
  replace (load_lines [ws1 ++ line ++ ws2]) with (load_lines [line]);
    [reflexivity|].
  unfold load_lines. simpl. unfold load_step.
  now rewrite (strip_padded_any ws1 line ws2 H1 H2).
Qed.

End MoreLoader.

(** ** Further properties: the summarizer *)

Lemma last_app_nonempty {A : Type} (a b : list A) (d : A) :
  b <> [] -> last (a ++ b) d = last b d.
Proof.
  intros Hb. induction a as [|x a IH]; [reflexivity|].
  simpl app. destruct (a ++ b) eqn:E.
  - destruct a; [simpl in E; congruence|discriminate].
  - exact IH.
Qed.

Lemma filter_length_perm {A : Type} (f : A -> bool) (l l' : list A) :
  Permutation l l' ->
  List.length (filter f l) = List.length (filter f l').
Proof.
  induction 1 as [|x l l' _ IH|x y l|l l' l'' _ IH1 _ IH2]; simpl.
  - reflexivity.
  - destruct (f x); simpl; now rewrite IH.
  - destruct (f x), (f y); reflexivity.
  - now rewrite IH1.
Qed.

Section MoreSummarizer.
Context {PF : PyFloat} {PJ : PyJson PF}.

Lemma count_role_same_lookups (role : str) (a b : list json) :
  Forall2 (fun x y => py_get x (lit "role") JNone = py_get y (lit "role") JNone)
          a b ->
  forall acc, count_role role a acc = count_role role b acc.
Proof.
  induction 1 as [|x y a b Hxy _ IH]; intros acc; simpl; [reflexivity|].
  rewrite Hxy. destruct (py_get y (lit "role") JNone); simpl; auto.
Qed.

(** X6. The summary depends on the records through three things only:
    what the role lookup gives on each record, and what the text lookup
    gives on the first and on the last.  No other field, and no text of a
    record in between, can change the summary or the error. *)
Theorem summarize_reads_roles_and_end_texts :
  forall a b : list json,
    Forall2 (fun x y =>
               py_get x (lit "role") JNone = py_get y (lit "role") JNone) a b ->
    py_get (hd JNone a) (lit "text") (JStr [])
    = py_get (hd JNone b) (lit "text") (JStr []) ->
    py_get (last a JNone) (lit "text") (JStr [])
    = py_get (last b JNone) (lit "text") (JStr []) ->
    summarize a = summarize b.
Proof.
  intros a b HR Hf Hl.
  pose proof (Forall2_length HR) as Hlen.
  destruct HR as [|x y a b Hxy HR]; [reflexivity|].
  assert (HR' : Forall2 (fun x y => py_get x (lit "role") JNone
                                    = py_get y (lit "role") JNone)
                        (x :: a) (y :: b)) by (now constructor).
  unfold summarize. rewrite Hlen.
  change (List.length (y :: b) =? 0) with false. cbv iota.
  cbn [hd] in Hf. rewrite Hf, Hl.
  now rewrite !(count_role_same_lookups _ _ _ HR').
Qed.

Lemma summarize_first_not_dict (m0 : json) (rest : list json) :
  is_dict m0 = false ->
  summarize (m0 :: rest) = Raise (AttributeError (type_name m0) (lit "get")).
Proof.
  intros H. unfold summarize.
  change (List.length (m0 :: rest) =? 0) with false. cbv iota.
  now rewrite (py_get_not_dict m0 _ _ H).
Qed.

Lemma summarize_last_not_dict (m0 : json) (rest : list json) :
  is_dict m0 = true -> is_dict (last (m0 :: rest) JNone) = false ->
  summarize (m0 :: rest)
  = Raise (AttributeError (type_name (last (m0 :: rest) JNone)) (lit "get")).
Proof.
  intros H0 Hl. unfold summarize.
  change (List.length (m0 :: rest) =? 0) with false. cbv iota.
  rewrite (py_get_text m0 H0). cbn [rbind Ok].
  now rewrite (py_get_not_dict _ _ _ Hl).
Qed.

Lemma count_role_first_bad (role : str) (pre post : list json) (bad : json) :
  all_dicts pre -> is_dict bad = false ->
  forall acc,
    count_role role (pre ++ bad :: post) acc
    = Raise (AttributeError (type_name bad) (lit "get")).
Proof.
  intros Hpre Hbad. induction Hpre as [|m pre Hm _ IH]; intros acc; simpl.
  - now rewrite (py_get_not_dict bad _ _ Hbad).
  - destruct (role_test m role Hm) as (r & -> & _). simpl. apply IH.
Qed.

(** X7. The error names the record that stopped the summary, in the
    order the source looks at them: the first record if it is not an
    object; else the last record if it is not; else the earliest record
    that is not. *)
Theorem summarize_error_names_record :
  forall (m0 : json) (rest : list json),
    (is_dict m0 = false ->
     summarize (m0 :: rest)
     = Raise (AttributeError (type_name m0) (lit "get")))
    /\ (is_dict m0 = true ->
        is_dict (last (m0 :: rest) JNone) = false ->
        summarize (m0 :: rest)
        = Raise (AttributeError (type_name (last (m0 :: rest) JNone))
                   (lit "get")))
    /\ (forall (pre post : list json) (bad : json),
          m0 :: rest = pre ++ bad :: post ->
          is_dict (last (m0 :: rest) JNone) = true ->
          all_dicts pre -> is_dict bad = false ->
          pre <> [] ->
          summarize (m0 :: rest)
          = Raise (AttributeError (type_name bad) (lit "get"))).
Proof.
  intros m0 rest. split; [apply summarize_first_not_dict|].
  split; [apply summarize_last_not_dict|].
  intros pre post bad E Hl Hpre Hbad Hne.
  assert (H0 : is_dict m0 = true).
  { destruct pre as [|p pre]; [congruence|].
    injection E as -> _. now inversion Hpre. }
  unfold summarize.
  change (List.length (m0 :: rest) =? 0) with false. cbv iota.
  rewrite (py_get_text m0 H0). cbn [rbind Ok].
  rewrite (py_get_text _ Hl). cbn [rbind Ok].
  rewrite E. now rewrite (count_role_first_bad _ pre post bad Hpre Hbad).
Qed.

Lemma count_records_perm (role : str) (l l' : list json) :
  Permutation l l' -> count_records role l = count_records role l'.
Proof. apply filter_length_perm. Qed.

(** X8. The records between the first and the last can come in any
    order: when they are objects, permuting them leaves the summary, or
    the error, as it is. *)
Theorem summarize_middle_order :
  forall (m0 ml : json) (mid mid' : list json),
    Permutation mid mid' ->
    all_dicts mid ->
    summarize (m0 :: mid ++ [ml]) = summarize (m0 :: mid' ++ [ml]).
Proof.
  intros m0 ml mid mid' HP Hd.
  assert (Hd' : all_dicts mid').
  { unfold all_dicts in *. rewrite Forall_forall in *. intros x Hx.
    apply Hd. now apply (Permutation_in x (Permutation_sym HP)). }
  destruct (is_dict m0) eqn:H0;
    [|now rewrite !(summarize_first_not_dict m0 _ H0)].
  assert (Hl : forall x, last (m0 :: x ++ [ml]) JNone = ml).
  { intros x. change (m0 :: x ++ [ml]) with ((m0 :: x) ++ [ml]).
    apply last_last. }
  destruct (is_dict ml) eqn:H1.
  - assert (A : forall x, all_dicts x -> all_dicts (m0 :: x ++ [ml])).
    { intros x Hx. constructor; [exact H0|].
      apply Forall_app. split; [exact Hx|]. now constructor. }
    rewrite (summarize_dicts m0 _ (A mid Hd)),
            (summarize_dicts m0 _ (A mid' Hd')).
    assert (P : Permutation (m0 :: mid ++ [ml]) (m0 :: mid' ++ [ml])).
    { constructor. now apply Permutation_app_tail. }
    rewrite (Permutation_length P),
            (count_records_perm (lit "user") _ _ P),
            (count_records_perm (lit "char") _ _ P).
    rewrite !(last_default _ m0 JNone) by discriminate.
    now rewrite !Hl.
  - rewrite !summarize_last_not_dict; rewrite ?Hl; auto.
Qed.

(** X9. The summary of two transcripts read one after the other, each
    read to the end, with records and all of them objects: the loader
    returns the records of the first followed by those of the second; the totals and the two counts
    add up, the first text is that of the first transcript and the last
    text that of the second. *)
Theorem summarize_concatenation :
  forall (lines1 lines2 : list str) (a b : list json),
    load_lines lines1 = Ok a ->
    load_lines lines2 = Ok b ->
    a <> [] -> b <> [] -> all_dicts a -> all_dicts b ->
    load_lines (lines1 ++ lines2) = Ok (a ++ b)
    /\ summarize (a ++ b)
       = Ok (layout (List.length a + List.length b)
               (count_records (lit "user") a + count_records (lit "user") b)
               (count_records (lit "char") a + count_records (lit "char") b)
               (py_str (text_of (hd JNone a)))
               (py_str (text_of (last b JNone)))).
Proof.
  intros lines1 lines2 a b La Lb Ha Hb Da Db.
  split; [rewrite load_lines_app, La, Lb; reflexivity|].
  destruct (summarize_cases (a ++ b)) as (_ & H & _).
  rewrite H.
  - unfold count_records. rewrite !filter_app, !length_app.
    rewrite (last_app_nonempty a b JNone Hb).
    destruct a; [congruence|reflexivity].
  - destruct a; [congruence|discriminate].
  - apply Forall_app. now split.
Qed.

End MoreSummarizer.

(** ** Further properties: the command line *)

Section MoreCommandLine.
Context {PF : PyFloat} {PJ : PyJson PF} {PL : Platform}.

(** X10. [main] never returns: every path ends in an exception,
    [SystemExit] or one that nothing catches, and the status of the
    process is 0, 1 or 2. *)
Theorem main_always_exits :
  forall w : World,
    (exists e, snd (main w) = inl e)
    /\ (snd (run w) = 0 \/ snd (run w) = 1 \/ snd (run w) = 2)%Z.
Proof.
  intros w. unfold run. rewrite main_cases.
  destruct (List.length (sys_argv w) <? 2); [split; [now eexists|auto]|].
  cbv zeta.
  destruct (fs w (input_path (nth 1 (sys_argv w) []))) as [[data|]|];
    try (split; [now eexists|auto]).
  destruct (utf8_decode data) as [text|]; try (split; [now eexists|auto]).
  destruct (load_lines (iter_lines text [])) as [e|messages] eqn:Hll.
  { destruct (load_lines_exit_status _ _ Hll) as [E _].
    split; [now eexists|]. cbn [snd]. rewrite E. auto. }
  destruct (summarize messages) as [e|summary] eqn:Hs.
  { destruct (summarize_exn _ _ Hs) as (t & a & ->). split; [now eexists|auto]. }
  destruct (fs w (output_path (nth 1 (sys_argv w) []))) as [[old|]|];
    try (split; [now eexists|auto]);
    destruct (utf8_encode (translate_newlines linesep summary));
    (split; [now eexists|auto]).
Qed.

(** X11. Status 2 means one thing only: there is an argument and
    nothing exists at its path.  A run that fails in any other way ends
    with another status. *)
Theorem main_status_2 :
  forall w : World,
    snd (run w) = 2%Z
    <-> exists arg,
          nth_error (sys_argv w) 1 = Some arg
          /\ fs w (input_path arg) = None.
Proof.
  intros w. unfold run. rewrite main_cases. split.
  - destruct (List.length (sys_argv w) <? 2) eqn:Hn; [discriminate|].
    destruct (argv_1 _ Hn) as (arg & Ha & ->). cbv zeta.
    destruct (fs w (input_path arg)) as [[data|]|] eqn:Hf;
      [|discriminate|intros _; now exists arg].
    destruct (utf8_decode data) as [text|]; [|discriminate].
    destruct (load_lines (iter_lines text [])) as [e|messages] eqn:Hll.
    { destruct (load_lines_exit_status _ _ Hll) as [E _]. cbn [snd].
      rewrite E. discriminate. }
    destruct (summarize messages) as [e|summary] eqn:Hs.
    { destruct (summarize_exn _ _ Hs) as (t & a & ->). discriminate. }
    destruct (fs w (output_path arg)) as [[old|]|]; try discriminate;
      destruct (utf8_encode (translate_newlines linesep summary));
      discriminate.
  - intros (arg & Ha & Hf). destruct (argv_1_length _ _ Ha) as [-> ->].
    cbv zeta. now rewrite Hf.
Qed.

(** X12. What a run can touch.  It leaves [sys.argv] alone; it prints
    nothing or one line after what was printed before; it changes no
    path but "summary.md" beside the input, and none at all when there is
    no argument. *)
Theorem main_frame :
  forall w : World,
    sys_argv (fst (main w)) = sys_argv w
    /\ (stdout (fst (main w)) = stdout w
        \/ exists line, stdout (fst (main w)) = stdout w ++ [line])
    /\ (forall (arg : str) (q : Path),
          nth_error (sys_argv w) 1 = Some arg ->
          q <> output_path arg ->
          fs (fst (main w)) q = fs w q)
    /\ (List.length (sys_argv w) < 2 ->
        forall q : Path, fs (fst (main w)) q = fs w q).
Proof.
  intros w. rewrite main_cases.
  destruct (List.length (sys_argv w) <? 2) eqn:Hn.
  { split; [reflexivity|]. split; [right; now eexists|].
    split; intros; reflexivity. }
  destruct (argv_1 _ Hn) as (arg & Ha & Harg). rewrite Harg. cbv zeta.
  assert (L : ~ List.length (sys_argv w) < 2) by (apply Nat.ltb_ge in Hn; lia).
  assert (F : forall (P : Path -> Prop),
             (forall q, q <> output_path arg -> P q) ->
             forall (arg' : str) (q : Path),
               nth_error (sys_argv w) 1 = Some arg' ->
               q <> output_path arg' -> P q).
  { intros P HP arg' q Ha' Hq. apply HP. congruence. }
  destruct (fs w (input_path arg)) as [[data|]|];
    try (repeat split; try reflexivity; try (left; reflexivity);
         try (right; now eexists); try (intros; lia); fail).
  destruct (utf8_decode data) as [text|];
    try (repeat split; try reflexivity; try (left; reflexivity);
         try (intros; lia); fail).
  destruct (load_lines (iter_lines text [])) as [e|messages];
    try (repeat split; try reflexivity; try (left; reflexivity);
         try (intros; lia); fail).
  destruct (summarize messages) as [e|summary];
    try (repeat split; try reflexivity; try (left; reflexivity);
         try (intros; lia); fail).
  destruct (fs w (output_path arg)) as [[old|]|];
    try (repeat split; try reflexivity; try (left; reflexivity);
         try (intros; lia); fail);
    destruct (utf8_encode (translate_newlines linesep summary));
    (split; [reflexivity|]);
    (split; [first [left; reflexivity | right; now eexists]|]);
    (split; [|intros; lia]);
    apply (F (fun q => fs_update (fs w) (output_path arg) _ q = fs w q));
    intros q Hq; now apply fs_update_other.
Qed.

(** X13. A run stopped by an exception that nothing catches prints
    nothing, and changes no file unless the exception is
    [UnicodeEncodeError]: the summary could not be encoded, and
    "summary.md", opened for writing before, is left empty. *)
Theorem main_crash_effects :
  forall (w w' : World) (e : exn),
    main w = (w', inl e) ->
    (forall code, e <> SystemExit code) ->
    stdout w' = stdout w
    /\ ((forall q : Path, fs w' q = fs w q)
        \/ (e = UnicodeEncodeError
            /\ exists arg,
                 nth_error (sys_argv w) 1 = Some arg
                 /\ fs w' (output_path arg) = Some (File [])
                 /\ forall q, q <> output_path arg -> fs w' q = fs w q)).
Proof.
  intros w w' e. rewrite main_cases.
  destruct (List.length (sys_argv w) <? 2) eqn:Hn.
  { intros [= <- <-] H. now destruct (H 1%Z). }
  destruct (argv_1 _ Hn) as (arg & Ha & ->). cbv zeta.
  destruct (fs w (input_path arg)) as [[data|]|].
  2:{ intros [= <- <-] _. split; [reflexivity|now left]. }
  2:{ intros [= <- <-] H. now destruct (H 2%Z). }
  destruct (utf8_decode data) as [text|].
  2:{ intros [= <- <-] _. split; [reflexivity|now left]. }
  destruct (load_lines (iter_lines text [])) as [e'|messages].
  { intros [= <- <-] _. split; [reflexivity|now left]. }
  destruct (summarize messages) as [e'|summary].
  { intros [= <- <-] _. split; [reflexivity|now left]. }
  destruct (fs w (output_path arg)) as [[old|]|];
    try (intros [= <- <-] _; split; [reflexivity|now left]);
    destruct (utf8_encode (translate_newlines linesep summary));
    intros [= <- <-] H; try (now destruct (H 0%Z));
    (split; [reflexivity|]); right; (split; [reflexivity|]);
    exists arg; (split; [exact Ha|]);
    (split; [apply fs_update_same|intros q Hq; now apply fs_update_other]).
Qed.

(** X14. A directory passes the test [exists()]: the run goes on,
    fails to open it, and ends with status 1 having printed nothing and
    written nothing. *)
Theorem main_on_directory :
  forall (w : World) (arg : str),
    nth_error (sys_argv w) 1 = Some arg ->
    fs w (input_path arg) = Some Dir ->
    main w = (w, Raise IsADirectoryError) /\ run w = (w, 1%Z).
Proof.
  intros w arg Ha Hf. unfold run. rewrite main_cases.
  destruct (argv_1_length _ _ Ha) as [-> ->]. cbv zeta. rewrite Hf.
  now split.
Qed.

(** X15. When the loader returns the records, one line that parses to
    something else than an object stops the whole run: status 1, nothing printed, no summary written, even
    when every other line is a good record. *)
Theorem main_on_non_object :
  forall (w : World) (arg : str) (data : bytes) (text : str),
    nth_error (sys_argv w) 1 = Some arg ->
    fs w (input_path arg) = Some (File data) ->
    utf8_decode data = Some text ->
    forall messages : list json,
      load_lines (iter_lines text []) = Ok messages ->
      ~ all_dicts messages ->
      run w = (w, 1%Z).
Proof.
  intros w arg data text Ha Hf Hd messages Hll Hn. unfold run.
  rewrite main_cases.
  destruct (argv_1_length _ _ Ha) as [-> ->]. cbv zeta. rewrite Hf, Hd.
  unfold Ok in Hll. rewrite Hll.
  assert (Hne : messages <> [])
    by (intros E; apply Hn; rewrite E; constructor).
  destruct (summarize_raises _ Hne Hn) as [t ->]. reflexivity.
Qed.

(** X16. Of [sys.argv] the run reads the second element and whether
    there is one: the name of the script and any further argument change
    nothing of what is printed, written and returned. *)
Theorem main_reads_one_argument :
  forall (w : World) (argv' : list str),
    nth_error argv' 1 = nth_error (sys_argv w) 1 ->
    let w2 := mkWorld argv' (fs w) (stdout w) in
    stdout (fst (main w2)) = stdout (fst (main w))
    /\ (forall q : Path, fs (fst (main w2)) q = fs (fst (main w)) q)
    /\ snd (main w2) = snd (main w).
Proof.
  intros w argv' H w2. rewrite !main_cases. cbn [sys_argv fs stdout w2].
  destruct (List.length (sys_argv w) <? 2) eqn:Hn.
  - assert (Hn' : (List.length argv' <? 2) = true).
    { apply Nat.ltb_lt. apply Nat.ltb_lt in Hn.
      assert (E : nth_error (sys_argv w) 1 = None) by (apply nth_error_None; lia).
      rewrite E in H. apply nth_error_None in H. lia. }
    rewrite Hn'. now repeat split.
  - destruct (argv_1 _ Hn) as (arg & Ha & ->). rewrite Ha in H.
    destruct (argv_1_length _ _ H) as [-> ->]. cbv zeta.
    destruct (fs w (input_path arg)) as [[data|]|]; try now repeat split.
    destruct (utf8_decode data) as [text|]; try now repeat split.
    destruct (load_lines (iter_lines text [])); try now repeat split.
    destruct (summarize l); try now repeat split.
    destruct (fs w (output_path arg)) as [[old|]|]; try now repeat split;
      destruct (utf8_encode (translate_newlines linesep s)); now repeat split.
Qed.

End MoreCommandLine.

(** ** The reference decoder

    The scanner is written with fuel.  What [loads] gives it is enough:
    every call consumes text, so the result is never [OutOfFuel] and a
    text is rejected only for what it is. *)

Module RefFacts.
Import Ref.

Local Opaque N.eqb N.ltb N.leb.

Lemma skip_ws_length (s : str) : List.length (skip_ws s) <= List.length s.
Proof.
  induction s as [|c s IH]; simpl; [lia|]. destruct (json_ws c); simpl; lia.
Qed.

Lemma eat_length (w s r : str) : eat w s = Some r -> List.length r <= List.length s.
Proof.
  revert s. induction w as [|a w IH]; intros s; simpl.
  - intros [= ->]. lia.
  - destruct s as [|b s]; [discriminate|]. destruct (a =? b)%N; [|discriminate].
    intros H. apply IH in H. simpl. lia.
Qed.

Lemma span_digits_length (s d r : str) :
  span_digits s = (d, r) -> List.length r <= List.length s.
Proof.
  revert d r. induction s as [|c s IH]; intros d r; simpl.
  - intros [= <- <-]. simpl. lia.
  - destruct (is_digit c).
    + destruct (span_digits s) as [d' r'] eqn:E. intros [= <- <-].
      specialize (IH _ _ eq_refl). lia.
    + intros [= <- <-]. simpl. lia.
Qed.

Lemma take_hex4_length (s r : str) (v : N) :
  take_hex4 s = Some (v, r) -> List.length r + 4 = List.length s.
Proof.
  unfold take_hex4. destruct s as [|h1 [|h2 [|h3 [|h4 rest]]]]; try discriminate.
  destruct (hex4 h1 h2 h3 h4); [|discriminate]. intros [= _ <-]. simpl. lia.
Qed.

Lemma scan_u_length (s : str) :
  match scan_u s with
  | Close r | Char _ r => List.length r < List.length s
  | Bad => True
  end.
Proof.
  unfold scan_u. destruct (take_hex4 s) as [[uni s3]|] eqn:E1; [|exact I].
  apply take_hex4_length in E1.
  destruct (in_range 55296 56319 uni); [|lia].
  destruct s3 as [|b [|u s3']]; try (simpl in *; lia).
  destruct ((b =? ch "\") && (u =? ch "u"))%N; [|lia].
  destruct (take_hex4 s3') as [[uni2 s4]|] eqn:E2; [|exact I].
  apply take_hex4_length in E2.
  destruct (in_range 56320 57343 uni2); simpl in *; lia.
Qed.

Lemma scan_piece_length (s : str) :
  match scan_piece s with
  | Close r | Char _ r => List.length r < List.length s
  | Bad => True
  end.
Proof.
  unfold scan_piece. destruct s as [|c s1]; [exact I|].
  destruct (c =? dquote)%N; [simpl; lia|].
  destruct (c <? 32)%N; [exact I|].
  destruct (c =? ch "\")%N; [|simpl; lia].
  destruct s1 as [|e s2]; [exact I|].
  destruct (e =? ch "u")%N.
  - pose proof (scan_u_length s2) as H. destruct (scan_u s2); simpl; try lia; exact I.
  - destruct (simple_escape e); [simpl; lia|exact I].
Qed.

Lemma scanstring_fuel (fuel : nat) :
  forall s acc,
    List.length s < fuel ->
    match scanstring fuel s acc with
    | Parsed _ r => List.length r < List.length s
    | Invalid => True
    | Fails _ => True
    | OutOfFuel => False
    end.
Proof.
  induction fuel as [|fuel IH]; intros s acc Hf; [lia|].
  simpl. pose proof (scan_piece_length s) as Hp.
  destruct (scan_piece s) as [r|c r|]; try exact I; try exact Hp.
  specialize (IH r (acc ++ [c]) ltac:(lia)).
  destruct (scanstring fuel r (acc ++ [c])); try exact I; try lia.
Qed.

Lemma match_number_length (s : str) :
  match match_number s with
  | Parsed _ r => List.length r < List.length s
  | Invalid => True
  | Fails _ => True
  | OutOfFuel => False
  end.
Proof.
  unfold match_number.
  set (neg_s0 := match s with
                 | c :: s' => if (c =? ch "-")%N then (true, s') else (false, s)
                 | [] => (false, s)
                 end).
  assert (H0 : List.length (snd neg_s0) <= List.length s).
  { subst neg_s0. destruct s as [|c s']; [simpl; lia|].
    destruct (c =? ch "-")%N; simpl; lia. }
  destruct neg_s0 as [neg s0]. simpl in H0.
  set (ip := match s0 with
             | c :: s1 =>
                 if (c =? ch "0")%N then Some ([c], s1)
                 else if in_range 49 57 c
                      then let (d, r) := span_digits s1 in Some (c :: d, r)
                      else None
             | [] => None
             end).
  assert (H1 : match ip with Some (_, r0) => List.length r0 < List.length s0 | None => True end).
  { subst ip. destruct s0 as [|c s1]; [exact I|].
    destruct (c =? ch "0")%N; [simpl; lia|].
    destruct (in_range 49 57 c); [|exact I].
    destruct (span_digits s1) as [d r] eqn:E. apply span_digits_length in E.
    simpl. lia. }
  destruct ip as [[ds r0]|]; [|exact I].
  assert (H2 : List.length (snd (match match_frac r0 with Some (f, r) => (f, r) | None => ([], r0) end)) <= List.length r0).
  { unfold match_frac. destruct r0 as [|dot s1]; [simpl; lia|].
    destruct (dot =? ch ".")%N; [|simpl; lia].
    destruct (span_digits s1) as [d r] eqn:E. apply span_digits_length in E.
    destruct d; simpl; lia. }
  destruct (match match_frac r0 with Some (f, r) => (f, r) | None => ([], r0) end) as [frac r1].
  simpl in H2.
  assert (H3 : List.length (snd (match match_exp r1 with Some (x, r) => (x, r) | None => ([], r1) end)) <= List.length r1).
  { unfold match_exp. destruct r1 as [|e s1]; [simpl; lia|].
    destruct ((e =? ch "e") || (e =? ch "E"))%N; [|simpl; lia].
    destruct s1 as [|sg s2].
    - simpl. lia.
    - destruct ((sg =? ch "-") || (sg =? ch "+"))%N.
      + destruct (span_digits s2) as [d r] eqn:E. apply span_digits_length in E.
        destruct d; simpl; lia.
      + destruct (span_digits (sg :: s2)) as [d r] eqn:E.
        apply span_digits_length in E. destruct d; simpl in *; lia. }
  destruct (match match_exp r1 with Some (x, r) => (x, r) | None => ([], r1) end) as [ex r2].
  simpl in H3.
  destruct frac, ex; try (simpl; lia).
  destruct (int_max_str_digits <? List.length ds); simpl; [exact I|lia].
Qed.

Lemma consumed_weaken {A : Type} (res : parse A) (s s' : str) :
  consumed res s -> List.length s <= List.length s' -> consumed res s'.
Proof. destruct res; simpl; try tauto. lia. Qed.

Lemma skip_ws_cons (s r : str) (c : codepoint) :
  skip_ws s = c :: r -> List.length r < List.length s.
Proof.
  intros H. pose proof (skip_ws_length s) as L. rewrite H in L. simpl in L. lia.
Qed.

Lemma eat_consumed (w s : str) (v : @json ref_float) (c : codepoint) :
  consumed (match eat w s with Some r => Parsed v r | None => Invalid end) (c :: s).
Proof.
  destruct (eat w s) as [r|] eqn:E; [|exact I].
  apply eat_length in E. simpl. lia.
Qed.

Lemma scan_fuel (fuel : nat) :
  (forall s, 2 * List.length s < fuel -> consumed (scan_once fuel s) s)
  /\ (forall s acc, 2 * List.length s + 1 < fuel ->
      consumed (array_items fuel s acc) s)
  /\ (forall s acc, 2 * List.length s + 1 < fuel ->
      consumed (object_items fuel s acc) s).
Proof.
  induction fuel as [|fuel (IHs & IHa & IHo)]; [repeat split; intros; lia|].
  split; [|split].
  - intros s Hf. destruct s as [|c s1]; [exact I|].
    cbn [scan_once]. simpl List.length in Hf.
    destruct (c =? dquote)%N.
    { pose proof (scanstring_fuel (S (List.length s1)) s1 [] ltac:(lia)) as H.
      destruct (scanstring (S (List.length s1)) s1 []); simpl in *; try lia; exact I. }
    destruct (c =? ch "{")%N.
    { destruct (skip_ws s1) as [|c' r] eqn:E; [exact I|].
      pose proof (skip_ws_length s1) as L.
      destruct (c' =? ch "}")%N.
      - apply skip_ws_cons in E. simpl. lia.
      - rewrite <- E. eapply consumed_weaken; [apply IHo|]; simpl; lia. }
    destruct (c =? ch "[")%N.
    { destruct (skip_ws s1) as [|c' r] eqn:E; [exact I|].
      pose proof (skip_ws_length s1) as L.
      destruct (c' =? ch "]")%N.
      - apply skip_ws_cons in E. simpl. lia.
      - rewrite <- E. eapply consumed_weaken; [apply IHa|]; simpl; lia. }
    destruct (c =? ch "n")%N; [apply eat_consumed|].
    destruct (c =? ch "t")%N; [apply eat_consumed|].
    destruct (c =? ch "f")%N; [apply eat_consumed|].
    destruct (c =? ch "N")%N; [apply eat_consumed|].
    destruct (c =? ch "I")%N; [apply eat_consumed|].
    destruct (c =? ch "-")%N.
    { destruct (eat (lit "Infinity") s1) as [r|] eqn:E.
      - apply eat_length in E. simpl. lia.
      - apply match_number_length. }
    apply match_number_length.
  - intros s acc Hf. cbn [array_items].
    pose proof (IHs s ltac:(lia)) as H.
    destruct (scan_once fuel s) as [v r| | |]; simpl in H; try exact H.
    destruct (skip_ws r) as [|c r'] eqn:E; [exact I|].
    apply skip_ws_cons in E.
    destruct (c =? ch "]")%N; [simpl; lia|].
    destruct (c =? ch ",")%N; [|exact I].
    pose proof (skip_ws_length r') as L.
    eapply consumed_weaken; [apply IHa|]; lia.
  - intros s acc Hf. cbn [object_items].
    destruct s as [|q s1]; [exact I|]. simpl List.length in Hf.
    destruct (q =? dquote)%N; [|exact I].
    pose proof (scanstring_fuel (S (List.length s1)) s1 [] ltac:(lia)) as H.
    destruct (scanstring (S (List.length s1)) s1 []) as [key r0| | |];
      simpl in H; try exact H; try exact I.
    destruct (skip_ws r0) as [|colon r1] eqn:E0; [exact I|].
    apply skip_ws_cons in E0.
    destruct (colon =? ch ":")%N; [|exact I].
    pose proof (skip_ws_length r1) as L1.
    pose proof (IHs (skip_ws r1) ltac:(lia)) as Hv.
    destruct (scan_once fuel (skip_ws r1)) as [v r2| | |]; simpl in Hv;
      try exact Hv; try exact I.
    destruct (skip_ws r2) as [|c r3] eqn:E2; [exact I|].
    apply skip_ws_cons in E2.
    destruct (c =? ch "}")%N; [simpl; lia|].
    destruct (c =? ch ",")%N; [|exact I].
    pose proof (skip_ws_length r3) as L3.
    eapply consumed_weaken; [apply IHo|]; simpl; lia.
Qed.

(** [loads] never stops for lack of fuel: it rejects a text only when the
    scanner finds it invalid or finds something after the value. *)
Lemma loads_fuel (s : str) :
  scan_once (2 * List.length s + 1) (skip_ws s) <> OutOfFuel.
Proof.
  pose proof (skip_ws_length s) as L.
  pose proof (proj1 (scan_fuel (2 * List.length s + 1)) (skip_ws s) ltac:(lia)) as H.
  intros E. rewrite E in H. exact H.
Qed.

End RefFacts.

(** ** Runs on the reference runtime *)

Module Runs.
Import Ref Scenario.

(** C8. On the five lines of the scenario the loader returns the three
    records, in order; the summary counts 3 messages, 2 of the user and 1
    of the character, and shows "hi" as first and "bye" as last text; run
    as a script, the program writes exactly that summary and ends with
    status 0. *)
Theorem scenario_summary :
  load_messages chat (world transcript) = (world transcript, Ok records)
  /\ List.length records = 3
  /\ count_records (lit "user") records = 2
  /\ count_records (lit "char") records = 1
  /\ py_str (text_of (hd JNone records)) = lit "hi"
  /\ py_str (text_of (last records JNone)) = lit "bye"
  /\ summarize records = Ok summary_text
  /\ snd (run (world transcript)) = 0%Z
  /\ fs (fst (run (world transcript))) summary_md
     = option_map File (utf8_encode summary_text).
Proof. repeat split; vm_compute; reflexivity. Qed.

(** *** The general statements at concrete inputs *)

Lemma transcript_records : load_lines transcript_lines = Ok records.
Proof. vm_compute. reflexivity. Qed.

Lemma records_all_dicts : all_dicts records.
Proof. repeat constructor. Qed.








Lemma load_lines_strips_padding_witness :
  Forall (fun c => isspace c = true) padding_before
  /\ Forall (fun c => isspace c = true) padding_after
  /\ padded_value <> [] /\ strip padded_value = padded_value
  /\ json_loads padded_value = Loaded (JDict [(lit "a", JInt 1)])
  /\ json_loads (padding_before ++ padded_value ++ padding_after)
     = JSONDecodeError
  /\ load_lines ([nl] ++ [padding_before ++ padded_value ++ padding_after]
                 ++ [lit "oops" ++ nl])
     = (b <- load_lines [nl] ;;
        a <- load_lines [lit "oops" ++ nl] ;;
        Ok (b ++ [JDict [(lit "a", JInt 1)]] ++ a)).
Proof.
  assert (H6 : json_loads (padding_before ++ padded_value ++ padding_after)
               = JSONDecodeError) by (vm_compute; reflexivity).
  assert (H1 : Forall (fun c => isspace c = true) padding_before)
    by (repeat constructor).
  assert (H2 : Forall (fun c => isspace c = true) padding_after)
    by (repeat constructor).
  assert (H3 : padded_value <> []) by discriminate.
  assert (H4 : strip padded_value = padded_value) by (vm_compute; reflexivity).
  assert (H5 : json_loads padded_value = Loaded (JDict [(lit "a", JInt 1)]))
    by (vm_compute; reflexivity).
  repeat (split; [assumption|]).
  exact (load_lines_strips_padding [nl] [lit "oops" ++ nl] padding_before
           padded_value padding_after (JDict [(lit "a", JInt 1)])
           H1 H2 H3 H4 H5).
Defined.

Lemma summarize_counts_witness :
  load_lines transcript_lines = Ok records
  /\ 1 <= List.length (filter parseable transcript_lines)
  /\ exists out,
       summarize records = Ok out
       /\ has_line out (lit "Total messages: 3")
       /\ has_line out (lit "User messages: 2")
       /\ has_line out (lit "Character messages: 1").
Proof.
  assert (H1 : 1 <= List.length (filter parseable transcript_lines))
    by (vm_compute; lia).
  split; [exact transcript_records|]. split; [exact H1|].
  destruct (summarize_counts transcript_lines records transcript_records H1)
    as (_ & _ & Hex & Hl).
  destruct (Hex records_all_dicts) as [out Hs].
  destruct (Hl out Hs) as (Ht & Hu & Hc).
  exists out. split; [exact Hs|].
  replace (lit "Total messages: 3")
    with (lit "Total messages: "
          ++ str_of_nat (List.length (filter parseable transcript_lines)))
    by (vm_compute; reflexivity).
  replace (lit "User messages: 2")
    with (lit "User messages: "
          ++ str_of_nat (count_records (lit "user") records))
    by (vm_compute; reflexivity).
  replace (lit "Character messages: 1")
    with (lit "Character messages: "
          ++ str_of_nat (count_records (lit "char") records))
    by (vm_compute; reflexivity).
  repeat split; assumption.
Defined.

Lemma summarize_layout_witness :
  load_lines no_records = Ok []
  /\ summarize []
     = Ok (lit "# Analysis

No messages found.")
  /\ load_lines transcript_lines = Ok records
  /\ summarize records = Ok (layout 3 2 1 (lit "hi") (lit "bye")).
Proof.
  assert (H0 : load_lines no_records = Ok []) by (vm_compute; reflexivity).
  split; [exact H0|]. split; [|split; [exact transcript_records|]].
  - refine (proj1 (summarize_layout no_records [] H0) _).
    vm_compute. reflexivity.
  - assert (H1 : 1 <= List.length (filter parseable transcript_lines))
      by (vm_compute; lia).
    etransitivity;
      [exact (proj1 (proj2 (summarize_layout transcript_lines records
                              transcript_records)) H1 records_all_dicts)|].
    vm_compute. reflexivity.
Defined.

Lemma summarize_first_last_witness :
  all_dicts records
  /\ exists out head,
       summarize records = Ok out
       /\ out = head ++ lit "## First message" ++ nl ++ lit "hi" ++ nl ++ nl
                ++ lit "## Last message" ++ nl ++ lit "bye" ++ nl.
Proof.
  split; [apply records_all_dicts|].
  destruct (summarize_first_last (record "user" "hi")
              [record "char" "hello"; record "user" "bye"]) as [Hex Hl].
  destruct (Hex records_all_dicts) as [out Hs].
  destruct (Hl out Hs) as [head H].
  exists out, head. split; [exact Hs|].
  etransitivity; [exact H|]. reflexivity.
Defined.

(** Records without role and without text; a record that is a list. *)
Lemma summarize_completes_iff_objects_witness :
  (exists out, summarize [JDict []; JDict [(lit "n", JInt 1)]] = Ok out)
  /\ ~ all_dicts [record "user" "hi"; JList []]
  /\ exists t,
       summarize [record "user" "hi"; JList []]
       = Raise (AttributeError t (lit "get")).
Proof.
  assert (H : ~ all_dicts [record "user" "hi"; JList []]).
  { intros H. inversion H as [|? ? _ H']. inversion H' as [|? ? E _].
    discriminate E. }
  split; [|split; [exact H|]].
  - refine (proj1 (summarize_completes_iff_objects _) _). repeat constructor.
  - exact (proj2 (summarize_completes_iff_objects _) H).
Defined.

Lemma main_exit_codes_witness :
  run no_argument
  = (mkWorld [lit "analyzer.py"] (fs_of [])
       [lit "Usage: python analyzer.py <transcript.jsonl>"], 1%Z)
  /\ run missing_file
     = (mkWorld [lit "analyzer.py"; lit "~/nothing.jsonl"] (fs_of [])
          [lit "File not found: /home/user/nothing.jsonl"], 2%Z)
  /\ snd (run (world transcript)) = 0%Z.
Proof.
  split; [|split].
  - refine (proj1 (main_exit_codes no_argument) _). vm_compute. lia.
  - assert (Ha : nth_error (sys_argv missing_file) 1
                 = Some (lit "~/nothing.jsonl")) by reflexivity.
    assert (Hf : fs missing_file (input_path (lit "~/nothing.jsonl")) = None)
      by reflexivity.
    etransitivity;
      [exact (proj1 (proj2 (main_exit_codes missing_file)) _ Ha Hf)|].
    vm_compute. reflexivity.
  - assert (Ha : nth_error (sys_argv (world transcript)) 1
                 = Some (lit "/data/chat.jsonl")) by reflexivity.
    assert (Hl : load_messages (input_path (lit "/data/chat.jsonl"))
                   (world transcript) = (world transcript, Ok records))
      by (vm_compute; reflexivity).
    assert (Hs : summarize records = Ok summary_text)
      by (vm_compute; reflexivity).
    assert (Hd : fs (world transcript) (output_path (lit "/data/chat.jsonl"))
                 <> Some Dir) by (vm_compute; discriminate).
    assert (He : utf8_encode (translate_newlines linesep summary_text)
                 = Some (ascii_bytes summary_text))
      by (vm_compute; reflexivity).
    exact (proj2 (proj2 (main_exit_codes (world transcript)))
             _ _ _ _ Ha Hl Hs Hd He).
Defined.

Lemma main_writes_summary_witness :
  run (world transcript) = (fst (run (world transcript)), 0%Z)
  /\ exists (arg : str) (out : bytes),
       nth_error (sys_argv (world transcript)) 1 = Some arg
       /\ fs (fst (run (world transcript)))
            (joinpath (parent (input_path arg)) (lit "summary.md"))
          = Some (File out)
       /\ stdout (fst (run (world transcript)))
          = stdout (world transcript)
            ++ [lit "Wrote summary to "
                ++ path_str (joinpath (parent (input_path arg))
                               (lit "summary.md"))].
Proof.
  assert (H : run (world transcript) = (fst (run (world transcript)), 0%Z))
    by (vm_compute; reflexivity).
  split; [exact H|].
  destruct (main_writes_summary (world transcript) _ H)
    as (arg & messages & summary & out & Ha & _ & _ & _ & _ & Hf & _ & Ho).
  exists arg, out. repeat split; assumption.
Defined.

Lemma run_twice_same_summary_witness :
  run (world transcript) = (fst (run (world transcript)), 0%Z)
  /\ run (fst (run (world transcript)))
     = (fst (run (fst (run (world transcript)))), 0%Z)
  /\ fs (fst (run (world transcript))) (input_path (lit "/data/chat.jsonl"))
     = fs (world transcript) (input_path (lit "/data/chat.jsonl"))
  /\ (forall q : Path,
        fs (fst (run (fst (run (world transcript))))) q
        = fs (fst (run (world transcript))) q)
  /\ 0%Z = 0%Z.
Proof.
  set (w0 := world transcript). set (w1 := fst (run w0)).
  set (w2 := fst (run w1)).
  assert (H1 : run w0 = (w1, 0%Z)) by (vm_compute; reflexivity).
  assert (H2 : run w1 = (w2, 0%Z)) by (vm_compute; reflexivity).
  assert (H3 : fs w1 (input_path (lit "/data/chat.jsonl"))
               = fs w0 (input_path (lit "/data/chat.jsonl")))
    by (vm_compute; reflexivity).
  repeat (split; [assumption|]).
  refine (proj2 run_twice_same_summary w0 w1 w2 0%Z 0%Z H1 H2 _).
  intros arg Ha.
  assert (E : arg = lit "/data/chat.jsonl")
    by (change (Some (lit "/data/chat.jsonl") = Some arg) in Ha; congruence).
  rewrite E. exact H3.
Defined.

(** *** Inputs at which the statements of the specification fail *)

(** C1 as the specification states it fails for N = 0: a file of a blank
    line and a malformed line has no parsed record, and its summary has
    no line "Total messages: 0". *)
Lemma summary_without_total_line :
  List.length (filter parseable no_records) = 0
  /\ load_lines no_records = Ok []
  /\ summarize []
     = Ok (lit "# Analysis

No messages found.")
  /\ ~ has_line (lit "# Analysis

No messages found.") (lit "Total messages: " ++ str_of_nat 0).
Proof.
  repeat split; try (vm_compute; reflexivity).
  unfold has_line. vm_compute. intros [H|[H|[H|[]]]]; discriminate H.
Qed.


(** C5 as the specification states it fails on a line that parses as a
    number: the loader returns the number as a record and [summarize]
    raises [AttributeError], an [int] having no [get]. *)
Lemma summarize_raises_on_number :
  load_lines [lit "42" ++ nl] = Ok [JInt 42]
  /\ summarize [JInt 42]
     = Raise (AttributeError (lit "int") (lit "get")).
Proof. split; vm_compute; reflexivity. Qed.

End Runs.

(** ** Further runs on the reference runtime *)

Module MoreRuns.
Import Ref Scenario Scenario2.

Lemma load_lines_records_of_lines_witness :
  load_lines transcript_lines = Ok records
  /\ forall j : json,
       In j records
       <-> exists line,
             In line transcript_lines /\ strip line <> []
             /\ json_loads (strip line) = Loaded j.
Proof.
  assert (E : load_lines transcript_lines = Ok records)
    by (vm_compute; reflexivity).
  split; [exact E|].
  exact (load_lines_records_of_lines transcript_lines records E).
Defined.

Lemma load_lines_at_most_one_per_line_witness :
  load_lines transcript_lines = Ok records
  /\ List.length records <= List.length transcript_lines
  /\ (List.length records = List.length transcript_lines
      <-> Forall (fun line => parseable line = true) transcript_lines).
Proof.
  assert (E : load_lines transcript_lines = Ok records)
    by (vm_compute; reflexivity).
  split; [exact E|].
  exact (load_lines_at_most_one_per_line transcript_lines records E).
Defined.

Lemma load_lines_of_parseable_lines_witness :
  load_lines transcript_lines = Ok records
  /\ load_lines (filter parseable transcript_lines) = Ok records.
Proof.
  assert (E : load_lines transcript_lines = Ok records)
    by (vm_compute; reflexivity).
  split; [exact E|].
  exact (load_lines_of_parseable_lines transcript_lines records E).
Defined.

Lemma load_lines_ignores_padding_witness :
  Forall (fun c => isspace c = true) padding_before
  /\ Forall (fun c => isspace c = true) padding_after
  /\ load_lines ([nl] ++ [padding_before ++ lit "  not json" ++ padding_after]
                 ++ transcript_lines)
     = load_lines ([nl] ++ [lit "  not json"] ++ transcript_lines).
Proof.
  assert (H1 : Forall (fun c => isspace c = true) padding_before)
    by (repeat constructor).
  assert (H2 : Forall (fun c => isspace c = true) padding_after)
    by (repeat constructor).
  repeat (split; [assumption|]).
  exact (load_lines_ignores_padding [nl] transcript_lines padding_before
           (lit "  not json") padding_after H1 H2).
Defined.

Lemma summarize_reads_roles_and_end_texts_witness :
  Forall2 (fun x y => py_get x (lit "role") JNone = py_get y (lit "role") JNone)
          records annotated_records
  /\ summarize records = summarize annotated_records.
Proof.
  assert (H : Forall2 (fun x y => py_get x (lit "role") JNone
                                  = py_get y (lit "role") JNone)
                      records annotated_records)
    by (repeat constructor).
  split; [exact H|].
  apply (summarize_reads_roles_and_end_texts records annotated_records H);
    reflexivity.
Defined.

Lemma summarize_error_names_record_witness :
  summarize [JList []; record "user" "hi"]
  = Raise (AttributeError (lit "list") (lit "get"))
  /\ summarize [record "user" "hi"; JInt 7; JStr (lit "x")]
     = Raise (AttributeError (lit "str") (lit "get"))
  /\ summarize [record "user" "hi"; JInt 7; JNone; record "user" "bye"]
     = Raise (AttributeError (lit "int") (lit "get")).
Proof.
  split; [|split].
  - refine (proj1 (summarize_error_names_record _ _) _). reflexivity.
  - refine (proj1 (proj2 (summarize_error_names_record _ _)) _ _); reflexivity.
  - refine (proj2 (proj2 (summarize_error_names_record _ _))
              [record "user" "hi"] [JNone; record "user" "bye"] (JInt 7)
              _ _ _ _ _);
      try reflexivity; try discriminate. repeat constructor.
Defined.

Lemma summarize_middle_order_witness :
  Permutation [record "char" "hello"; JDict []] [JDict []; record "char" "hello"]
  /\ all_dicts [record "char" "hello"; JDict []]
  /\ summarize (record "user" "hi" :: [record "char" "hello"; JDict []]
                ++ [record "user" "bye"])
     = summarize (record "user" "hi" :: [JDict []; record "char" "hello"]
                  ++ [record "user" "bye"]).
Proof.
  assert (H1 : Permutation [record "char" "hello"; JDict []]
                 [JDict []; record "char" "hello"]) by apply perm_swap.
  assert (H2 : all_dicts [record "char" "hello"; JDict []])
    by (repeat constructor).
  repeat (split; [assumption|]).
  exact (summarize_middle_order _ _ _ _ H1 H2).
Defined.

Lemma summarize_concatenation_witness :
  load_lines transcript_lines = Ok records
  /\ records <> []
  /\ all_dicts records
  /\ load_lines (transcript_lines ++ transcript_lines)
     = Ok (records ++ records)
  /\ summarize (records ++ records)
     = Ok (layout 6 4 2 (lit "hi") (lit "bye")).
Proof.
  assert (E : load_lines transcript_lines = Ok records)
    by (vm_compute; reflexivity).
  assert (H1 : records <> []) by discriminate.
  assert (H2 : all_dicts records) by (repeat constructor).
  repeat (split; [assumption|]).
  destruct (summarize_concatenation transcript_lines transcript_lines
              records records E E H1 H1 H2 H2) as [L S].
  split; [exact L|].
  etransitivity; [exact S|].
  vm_compute. reflexivity.
Defined.

Lemma main_frame_witness :
  fs (fst (main (world transcript))) chat = fs (world transcript) chat
  /\ forall q : Path, fs (fst (main no_argument)) q = fs no_argument q.
Proof.
  split.
  - refine (proj1 (proj2 (proj2 (main_frame (world transcript))))
              (lit "/data/chat.jsonl") chat _ _).
    + reflexivity.
    + vm_compute. discriminate.
  - refine (proj2 (proj2 (proj2 (main_frame no_argument))) _).
    vm_compute. lia.
Defined.

Lemma main_crash_effects_witness :
  main (world surrogate_transcript)
  = (fst (main (world surrogate_transcript)), inl UnicodeEncodeError)
  /\ stdout (fst (main (world surrogate_transcript))) = []
  /\ fs (fst (main (world surrogate_transcript))) summary_md = Some (File []).
Proof.
  assert (H : main (world surrogate_transcript)
              = (fst (main (world surrogate_transcript)),
                 inl UnicodeEncodeError)) by (vm_compute; reflexivity).
  split; [exact H|].
  destruct (main_crash_effects _ _ _ H ltac:(discriminate)) as [Hs _].
  split; [exact Hs|]. vm_compute. reflexivity.
Defined.

Lemma main_on_directory_witness :
  nth_error (sys_argv directory_world) 1 = Some (lit "/data")
  /\ fs directory_world (input_path (lit "/data")) = Some Dir
  /\ run directory_world = (directory_world, 1%Z).
Proof.
  assert (H1 : nth_error (sys_argv directory_world) 1 = Some (lit "/data"))
    by reflexivity.
  assert (H2 : fs directory_world (input_path (lit "/data")) = Some Dir)
    by (vm_compute; reflexivity).
  repeat (split; [assumption|]).
  exact (proj2 (main_on_directory directory_world (lit "/data") H1 H2)).
Defined.

Lemma main_on_non_object_witness :
  load_lines (iter_lines mixed_source []) = Ok [record "user" "hi"; JInt 42]
  /\ ~ all_dicts [record "user" "hi"; JInt 42]
  /\ run (world (ascii_bytes mixed_source))
     = (world (ascii_bytes mixed_source), 1%Z).
Proof.
  assert (E : load_lines (iter_lines mixed_source [])
              = Ok [record "user" "hi"; JInt 42])
    by (vm_compute; reflexivity).
  assert (H : ~ all_dicts [record "user" "hi"; JInt 42]).
  { intros H. inversion H as [|? ? _ H']. inversion H' as [|? ? B _].
    discriminate B. }
  split; [exact E|]. split; [exact H|].
  refine (main_on_non_object (world (ascii_bytes mixed_source))
            (lit "/data/chat.jsonl") (ascii_bytes mixed_source) mixed_source
            _ _ _ _ E H).
  - reflexivity.
  - vm_compute. reflexivity.
  - vm_compute. reflexivity.
Defined.

Lemma main_reads_one_argument_witness :
  nth_error [lit "python3"; lit "/data/chat.jsonl"; lit "--verbose"] 1
  = nth_error (sys_argv (world transcript)) 1
  /\ snd (main (mkWorld [lit "python3"; lit "/data/chat.jsonl"; lit "--verbose"]
                 (fs (world transcript)) (stdout (world transcript))))
     = snd (main (world transcript)).
Proof.
  assert (H : nth_error [lit "python3"; lit "/data/chat.jsonl"; lit "--verbose"] 1
              = nth_error (sys_argv (world transcript)) 1) by reflexivity.
  split; [exact H|].
  exact (proj2 (proj2 (main_reads_one_argument (world transcript) _ H))).
Defined.

End MoreRuns.
